(** * Tag classification: the Docker recognizer, the registry around it and
    the action that runs them

    A shallow embedding of [src/parsers/docker.ts] (class [DockerParser]), of
    [src/index.ts] (the run of the action) with [src/logger.ts] (class
    [Logger]), and of the parts of the repository they are used with.
    Strings are Rocq [string]s: a character stands for the UTF-16 code unit
    with the same number (U+0000 .. U+00FF).  The JavaScript regular
    expressions of the class are kept as syntax trees and run by a
    backtracking matcher written after the ECMAScript specification
    (continuation passing, greedy quantifiers, capture groups), so that [test]
    and [match] are what the class calls.  A run of the action is the list of
    the calls it makes on [@actions/core]. *)

From Stdlib Require Import Bool Arith Lia List Ascii String ZArith.
Import ListNotations.
Open Scope string_scope.
Open Scope nat_scope.

Set Implicit Arguments.

(* ------------------------------------------------------------------ *)
(** ** JavaScript strings *)

Module JS.

(** Code unit of a character. *)
Definition code (c : ascii) : nat := nat_of_ascii c.

Definition inRange (lo hi : nat) (c : ascii) : bool :=
  (lo <=? code c) && (code c <=? hi).

(** [String.prototype.toLowerCase] on one code unit of the Latin-1 range:
    A-Z, and the accented capitals U+00C0 .. U+00DE except the
    multiplication sign U+00D7, move down by 32. *)
Definition toLowerCaseChar (c : ascii) : ascii :=
  if inRange 65 90 c || inRange 192 214 c || inRange 216 222 c
  then ascii_of_nat (code c + 32)
  else c.

Fixpoint toLowerCase (s : string) : string :=
  match s with
  | EmptyString => EmptyString
  | String c s' => String (toLowerCaseChar c) (toLowerCase s')
  end.

(** [Array.prototype.includes] on an array of strings. *)
Definition includes (l : list string) (x : string) : bool :=
  existsb (String.eqb x) l.

(** [String.prototype.indexOf] for a one-character needle: the index of the
    first occurrence, or -1. *)
Fixpoint indexOfFrom (c : ascii) (s : string) (i : Z) : Z :=
  match s with
  | EmptyString => (-1)%Z
  | String d s' => if Ascii.eqb d c then i else indexOfFrom c s' (i + 1)%Z
  end.

Definition indexOf (s : string) (c : ascii) : Z := indexOfFrom c s 0%Z.

(** Relative index of [String.prototype.slice]: a negative index counts from
    the end, and both ends are clamped to the string. *)
Definition relIndex (len k : Z) : Z :=
  if (k <? 0)%Z then Z.max (len + k) 0 else Z.min k len.

(** [s.slice(from, to)]. *)
Definition slice (s : string) (from to : Z) : string :=
  let len := Z.of_nat (String.length s) in
  let a := relIndex len from in
  let b := relIndex len to in
  substring (Z.to_nat a) (Z.to_nat (Z.max (b - a) 0)) s.

(** [s.slice(from)]: up to the end of the string. *)
Definition sliceFrom (s : string) (from : Z) : string :=
  slice s from (Z.of_nat (String.length s)).

(** Truthiness of a string: the empty string is the only falsy one. *)
Definition truthy (s : string) : bool :=
  match s with EmptyString => false | String _ _ => true end.

(** [a || b] on strings. *)
Definition orElse (a b : string) : string := if truthy a then a else b.

(** White space and line terminators of the Latin-1 range: U+0009 .. U+000D,
    U+0020 and U+00A0. *)
Definition isWhiteSpace (c : ascii) : bool :=
  inRange 9 13 c || (code c =? 32) || (code c =? 160).

Fixpoint trimStart (s : string) : string :=
  match s with
  | EmptyString => EmptyString
  | String c s' => if isWhiteSpace c then trimStart s' else s
  end.

Fixpoint trimEnd (s : string) : string :=
  match s with
  | EmptyString => EmptyString
  | String c s' =>
      let r := trimEnd s' in
      if isWhiteSpace c && negb (truthy r) then EmptyString else String c r
  end.

(** [String.prototype.trim]. *)
Definition trim (s : string) : string := trimEnd (trimStart s).

End JS.

(* ------------------------------------------------------------------ *)
(** ** Regular expressions *)

Module RegExp.

(** The patterns of the repository quantify one-character atoms (a class, an
    escape, a literal) and optional groups; the syntax tree has a node for
    each.  A one-character atom is its membership test. *)
Inductive regex : Type :=
| Empty : regex
| AssertStart : regex                                  (* ^ *)
| AssertEnd : regex                                    (* $ *)
| CharSet : (ascii -> bool) -> regex                   (* one character *)
| Seq : regex -> regex -> regex
| Group : nat -> regex -> regex                        (* ( ... ), numbered *)
| Quant : (ascii -> bool) -> nat -> option nat -> regex  (* a{min,max}, greedy *)
| Opt : regex -> regex.                                (* (?: ... )?, greedy *)

(** Capture slots: slot [i] holds what group [i] captured, [None] for
    undefined.  Slot 0 is the whole match, as in the array [exec] returns. *)
Definition captures := list (option string).

Fixpoint setCapture (i : nat) (v : option string) (caps : captures) : captures :=
  match caps, i with
  | [], _ => []
  | _ :: rest, 0 => v :: rest
  | c :: rest, S j => c :: setCapture j v rest
  end.

Definition getCapture (caps : captures) (i : nat) : option string :=
  nth i caps None.

(** Number of capturing groups of a pattern. *)
Fixpoint countGroups (r : regex) : nat :=
  match r with
  | Seq a b => countGroups a + countGroups b
  | Group _ a => S (countGroups a)
  | Opt a => countGroups a
  | _ => 0
  end.

(** The groups inside a pattern: a quantifier resets them before each
    iteration of its atom. *)
Fixpoint groupsOf (r : regex) : list nat :=
  match r with
  | Seq a b => groupsOf a ++ groupsOf b
  | Group i a => i :: groupsOf a
  | Opt a => groupsOf a
  | _ => []
  end.

Definition resetCaptures (gs : list nat) (caps : captures) : captures :=
  fold_left (fun acc i => setCapture i None acc) gs caps.

(** A match result: the end index and the captures, or failure. *)
Definition MatchResult := option (nat * captures).

(** A continuation receives the state after a sub-match: the index reached,
    the input from there on, and the captures. *)
Definition Continuation := nat -> string -> captures -> MatchResult.

(** RepeatMatcher for a one-character atom: greedy, at least [min] and at most
    [max] characters ([None]: no bound). *)
Fixpoint repeatSet (p : ascii -> bool) (min : nat) (max : option nat)
    (pos : nat) (rest : string) (caps : captures) (k : Continuation)
    {struct rest} : MatchResult :=
  match max with
  | Some 0 => k pos rest caps
  | _ =>
    let once :=
      match rest with
      | String c rest' =>
          if p c
          then repeatSet p (Nat.pred min) (option_map Nat.pred max) (S pos) rest' caps k
          else None
      | EmptyString => None
      end in
    if 0 <? min then once
    else match once with
         | Some z => Some z
         | None => k pos rest caps
         end
  end.

(** The matcher of a pattern at index [pos], where [rest] is the input from
    [pos] on. *)
Fixpoint matcher (r : regex) (pos : nat) (rest : string) (caps : captures)
    (k : Continuation) {struct r} : MatchResult :=
  match r with
  | Empty => k pos rest caps
  | AssertStart => if pos =? 0 then k pos rest caps else None
  | AssertEnd =>
      match rest with
      | EmptyString => k pos rest caps
      | String _ _ => None
      end
  | CharSet p =>
      match rest with
      | String c rest' => if p c then k (S pos) rest' caps else None
      | EmptyString => None
      end
  | Seq a b =>
      matcher a pos rest caps (fun pos' rest' caps' => matcher b pos' rest' caps' k)
  | Group i a =>
      matcher a pos rest caps
        (fun pos' rest' caps' =>
           k pos' rest' (setCapture i (Some (substring 0 (pos' - pos) rest)) caps'))
  | Quant p min max => repeatSet p min max pos rest caps k
  | Opt a =>
      (* one greedy iteration that must consume input, or none at all *)
      match matcher a pos rest (resetCaptures (groupsOf a) caps)
              (fun pos' rest' caps' =>
                 if pos' =? pos then None else k pos' rest' caps') with
      | Some z => Some z
      | None => k pos rest caps
      end
  end.

Definition accept : Continuation := fun pos _ caps => Some (pos, caps).

Definition initialCaptures (r : regex) : captures :=
  repeat None (S (countGroups r)).

(** The search loop of RegExpBuiltinExec: try index [pos]; on failure a sticky
    expression gives up and any other moves one code unit on, up to and
    including the end of the input. *)
Fixpoint searchFrom (r : regex) (sticky : bool) (pos : nat) (rest : string)
    {struct rest} : option (nat * nat * captures) :=
  match matcher r pos rest (initialCaptures r) accept with
  | Some (e, caps) => Some (pos, e, caps)
  | None =>
      if sticky then None
      else match rest with
           | String _ rest' => searchFrom r sticky (S pos) rest'
           | EmptyString => None
           end
  end.

(** A RegExp object: its pattern, the [g] and [y] flags and the mutable
    [lastIndex].  (The [i] flag is part of the pattern: a letter written
    under it is the set of its two cases.) *)
Record t : Type := mk {
  source : regex;
  global : bool;
  sticky : bool;
  lastIndex : nat
}.

Definition setLastIndex (R : t) (n : nat) : t :=
  mk (source R) (global R) (sticky R) n.

(** The array a successful [exec] returns: element 0 is the matched
    substring, element [i] the capture of group [i]. *)
Definition MatchArray := list (option string).

(** RegExpBuiltinExec: the result and the object after the call. *)
Definition exec (R : t) (S : string) : option MatchArray * t :=
  let useLast := global R || sticky R in
  let start := if useLast then lastIndex R else 0 in
  if String.length S <? start
  then (None, if useLast then setLastIndex R 0 else R)
  else
    match searchFrom (source R) (sticky R) start
            (substring start (String.length S - start) S) with
    | None => (None, if useLast then setLastIndex R 0 else R)
    | Some (i, e, caps) =>
        (Some (setCapture 0 (Some (substring i (e - i) S)) caps),
         if useLast then setLastIndex R e else R)
    end.

(** [RegExp.prototype.test]. *)
Definition test (R : t) (S : string) : bool * t :=
  let (m, R') := exec R S in
  (match m with Some _ => true | None => false end, R').

(** The loop of [RegExp.prototype[Symbol.match]] for a global expression:
    every match in turn, an empty match moving [lastIndex] one code unit on.
    Each round moves [lastIndex] forward, so [fuel] rounds past the length of
    the input are never used up. *)
Fixpoint matchAll (fuel : nat) (R : t) (S : string) (acc : list (option string))
    : list (option string) * t :=
  match fuel with
  | 0 => (acc, R)
  | Datatypes.S fuel' =>
      match exec R S with
      | (None, R') => (acc, R')
      | (Some arr, R') =>
          let m := nth 0 arr None in
          let R'' := match m with
                     | Some EmptyString => setLastIndex R' (Datatypes.S (lastIndex R'))
                     | _ => R'
                     end in
          matchAll fuel' R'' S (acc ++ [m])%list
      end
  end.

(** [S.match(R)]: the array of [exec] for an expression without the [g] flag,
    the list of all matched substrings with it, [None] for null. *)
Definition matchString (S : string) (R : t) : option MatchArray * t :=
  if global R
  then
    let (all, R') := matchAll (String.length S + 2) (setLastIndex R 0) S [] in
    (match all with [] => None | _ :: _ => Some all end, R')
  else exec R S.

End RegExp.

(* ------------------------------------------------------------------ *)
(** ** Result types and the base class *)

(** Modelled from the spec: the enumeration [VersionType] of [src/types.ts]
    (section 3, SchemeTag), whose members [src/index.ts] names. *)
Inductive VersionType : Type := SEMVER | CALVER | DATE_BASED | DOCKER | AUTO.

(** Modelled from the spec: the record [VersionInfo] of [src/types.ts]
    (section 3): five strings, an absent component being the empty string. *)
Record VersionInfo : Type := mkInfo {
  major : string;
  minor : string;
  patch : string;
  prerelease : string;
  build : string
}.

(** Modelled from the spec: the record [ParseResult] of [src/types.ts]
    (section 3).  [format] is a scheme or empty ([None]). *)
Record ParseResult : Type := mkResult {
  isValid : bool;
  version : string;
  info : VersionInfo;
  format : option VersionType
}.

(** The record a failure carries: every field empty. *)
Definition emptyInfo : VersionInfo := mkInfo "" "" "" "" "".

(** Modelled from the spec: the abstract class [BaseParser] of
    [src/parsers/base.ts] (section 4.1).  A recognizer supplies its scheme and
    its [reconstructVersion]; the two result builders are shared. *)
Class BaseParser (P : Type) : Type := {
  schemeOf : P -> VersionType;
  reconstructVersion : P -> VersionInfo -> string -> string
}.

(** Modelled from the spec: [BaseParser.createSuccessResult] (section 4.1):
    a valid result of the recognizer's scheme whose [version] is the
    recognizer's own reconstruction. *)
Definition createSuccessResult {P : Type} `{BaseParser P}
    (this : P) (tag : string) (i : VersionInfo) : ParseResult :=
  mkResult true (reconstructVersion this i tag) i (Some (schemeOf this)).

(** Modelled from the spec: [BaseParser.createFailedResult] (section 4.1):
    an invalid result with no scheme, empty fields and the tag itself as
    [version]. *)
Definition createFailedResult (tag : string) : ParseResult :=
  mkResult false tag emptyInfo None.

(* ------------------------------------------------------------------ *)
(** ** The Docker recognizer ([src/parsers/docker.ts]) *)

Module DockerParser.

Import JS.

(** [\d]. *)
Definition digit (c : ascii) : bool := inRange 48 57 c.

(** [\w], which is the class [[A-Za-z0-9_]] (the [i] flag adds nothing to it
    without the [u] flag). *)
Definition word (c : ascii) : bool :=
  inRange 65 90 c || inRange 97 122 c || inRange 48 57 c || Ascii.eqb c "_".

(** [[\w.-]], which is the class [[A-Za-z0-9_.-]]. *)
Definition wordDotHyphen (c : ascii) : bool :=
  word c || Ascii.eqb c "." || Ascii.eqb c "-".

(** The letter [v] under the [i] flag. *)
Definition letterV (c : ascii) : bool := Ascii.eqb c "v" || Ascii.eqb c "V".

(** [\.] and [-]. *)
Definition dot (c : ascii) : bool := Ascii.eqb c ".".
Definition hyphen (c : ascii) : bool := Ascii.eqb c "-".

Import RegExp.

(** [/^v?(\d+)(?:\.(\d+))?(?:\.(\d+))?(?:-([\w.-]+))?$/i] *)
Definition versionSource : regex :=
  Seq AssertStart
 (Seq (Quant letterV 0 (Some 1))
 (Seq (Group 1 (Quant digit 1 None))
 (Seq (Opt (Seq (CharSet dot) (Group 2 (Quant digit 1 None))))
 (Seq (Opt (Seq (CharSet dot) (Group 3 (Quant digit 1 None))))
 (Seq (Opt (Seq (CharSet hyphen) (Group 4 (Quant wordDotHyphen 1 None))))
      AssertEnd))))).

(** [/^[A-Za-z0-9_][A-Za-z0-9_.-]{0,127}$/] *)
Definition tagSource : regex :=
  Seq AssertStart
 (Seq (CharSet word)
 (Seq (Quant wordDotHyphen 0 (Some 127))
      AssertEnd)).

(** An instance of the class: its three fields.  The fields are [readonly],
    the RegExp objects they hold carry their own [lastIndex]. *)
Record t : Type := mk {
  specialTags : list string;
  dockerVersionPattern : RegExp.t;
  dockerTagPattern : RegExp.t
}.

(** [new DockerParser()]. *)
Definition new : t :=
  mk ["latest"; "stable"; "dev"; "test"; "prod"; "production"; "staging"]
     (RegExp.mk versionSource false false 0)
     (RegExp.mk tagSource false false 0).

(** The instance with one of its expression objects in a later state. *)
Definition withVersionPattern (this : t) (R : RegExp.t) : t :=
  mk (specialTags this) R (dockerTagPattern this).

Definition withTagPattern (this : t) (R : RegExp.t) : t :=
  mk (specialTags this) (dockerVersionPattern this) R.

(** [canParse(tag)]: the answer and the instance after the call.  [||] does
    not evaluate its right operand when the left one is true. *)
Definition canParse (this : t) (tag : string) : bool * t :=
  let lowerTag := toLowerCase tag in
  if includes (specialTags this) lowerTag then (true, this)
  else
    let (isVersion, vp) := RegExp.test (dockerVersionPattern this) tag in
    let this1 := withVersionPattern this vp in
    if isVersion then (true, this1)
    else
      let (isTag, tp) := RegExp.test (dockerTagPattern this1) tag in
      (isTag, withTagPattern this1 tp).

(** [reconstructVersion(info, originalTag)]. *)
Definition reconstructVersion (this : t) (i : VersionInfo) (originalTag : string)
    : string :=
  let lowerTag := toLowerCase originalTag in
  if includes (specialTags this) lowerTag then originalTag
  else if negb (truthy (major i)) then
    let dashIndex := indexOf originalTag "-" in
    if (dashIndex =? -1)%Z then originalTag else slice originalTag 0 dashIndex
  else
    let patch' := orElse (patch i) "0" in
    let version := major i ++ "." ++ minor i ++ "." ++ patch' in
    if truthy (prerelease i) then version ++ "-" ++ prerelease i else version.

#[export] Instance base : BaseParser t :=
  @Build_BaseParser t (fun _ => DOCKER) reconstructVersion.

(** An element of the match array with the default of the destructuring
    pattern: [x = ''] is the empty string when the element is undefined.
    Group 1 takes part in every match of the pattern, so [major], which has no
    default, is read the same way. *)
Definition element (arr : MatchArray) (i : nat) : string :=
  match nth i arr None with
  | Some s => s
  | None => ""
  end.

(** [parse(tag)]: the result and the instance after the call. *)
Definition parse (this : t) (tag : string) : ParseResult * t :=
  let lowerTag := toLowerCase tag in
  if includes (specialTags this) lowerTag
  then (createSuccessResult this tag (mkInfo "" "" "" "" ""), this)
  else
    let (m, vp) := matchString tag (dockerVersionPattern this) in
    let this1 := withVersionPattern this vp in
    match m with
    | None =>
        let (isTag, tp) := RegExp.test (dockerTagPattern this1) tag in
        let this2 := withTagPattern this1 tp in
        if negb isTag then (createFailedResult tag, this2)
        else
          let dashIndex := indexOf tag "-" in
          let remainder :=
            if (dashIndex =? -1)%Z then "" else sliceFrom tag (dashIndex + 1)%Z in
          (createSuccessResult this2 tag (mkInfo "" "" "" remainder ""), this2)
    | Some arr =>
        let major := element arr 1 in
        let minor := element arr 2 in
        let patch := element arr 3 in
        let suffix := element arr 4 in
        (createSuccessResult this1 tag (mkInfo major minor patch suffix ""), this1)
    end.

End DockerParser.

(* ------------------------------------------------------------------ *)
(** ** The recognizers and the registry that are not in [src/] *)

(** Helpers on strings for the grammars below. *)
Module Lex.

(** Every character passes [p]. *)
Fixpoint allChars (p : ascii -> bool) (s : string) : bool :=
  match s with
  | EmptyString => true
  | String c s' => p c && allChars p s'
  end.

(** The longest prefix whose characters pass [p], and what follows it. *)
Fixpoint span (p : ascii -> bool) (s : string) : string * string :=
  match s with
  | EmptyString => (EmptyString, EmptyString)
  | String c s' =>
      if p c then let (a, b) := span p s' in (String c a, b)
      else (EmptyString, s)
  end.

(** The text before the first [c], and the text after it when there is one. *)
Fixpoint cutAt (c : ascii) (s : string) : string * option string :=
  match s with
  | EmptyString => (EmptyString, None)
  | String d s' =>
      if Ascii.eqb d c then (EmptyString, Some s')
      else let (a, b) := cutAt c s' in (String d a, b)
  end.

(** The pieces between the occurrences of [c]. *)
Fixpoint splitOn (c : ascii) (s : string) : list string :=
  match s with
  | EmptyString => [EmptyString]
  | String d s' =>
      if Ascii.eqb d c then EmptyString :: splitOn c s'
      else match splitOn c s' with
           | [] => [String d EmptyString]
           | x :: xs => String d x :: xs
           end
  end.

(** A non-empty run of digits. *)
Definition numeric (s : string) : bool :=
  JS.truthy s && allChars DockerParser.digit s.

(** The number a run of digits writes. *)
Fixpoint valueFrom (acc : nat) (s : string) : nat :=
  match s with
  | EmptyString => acc
  | String c s' => valueFrom (10 * acc + (JS.code c - 48)) s'
  end.

Definition value (s : string) : nat := valueFrom 0 s.

(** The text of a part, empty when the part is absent. *)
Definition optional (o : option string) : string :=
  match o with Some s => s | None => EmptyString end.

End Lex.

(** Modelled from the spec: the year-plausibility constants that the absent
    [src/parsers/semver.ts] and [src/parsers/calver.ts] use (sections 4.2, 4.3
    and 9).  The spec names the constants without giving their values, so they
    are a parameter of the recognizers: a two-digit year is plausible from
    [shortYearThreshold] on, a four-digit year inside
    [modernYearMin .. modernYearMax]. *)
Record YearPolicy : Type := mkPolicy {
  shortYearThreshold : nat;
  modernYearMin : nat;
  modernYearMax : nat
}.

Module SemverParser.

Import Lex.

(** Modelled from the spec: an instance of the absent [SemverParser]; it
    holds the year constants. *)
Record t : Type := mk { policy : YearPolicy }.

(** Modelled from the spec: the characters of a prerelease or build
    identifier (section 4.2): letters, digits and the hyphen. *)
Definition alnumHyphen (c : ascii) : bool :=
  JS.inRange 48 57 c || JS.inRange 65 90 c || JS.inRange 97 122 c || Ascii.eqb c "-".

(** Modelled from the spec: dot-separated identifiers, each non-empty
    (section 4.2). *)
Definition identifiers (s : string) : bool :=
  forallb (fun id => JS.truthy id && allChars alnumHyphen id) (splitOn "." s).

(** Modelled from the spec: a suffix is optional, and well formed when
    present (section 4.2). *)
Definition suffixOk (o : option string) : bool :=
  match o with Some s => identifiers s | None => true end.

(** Modelled from the spec: the optional leading [v] (section 4.2). *)
Definition stripV (tag : string) : string :=
  match tag with
  | String "v" s => s
  | _ => tag
  end.

(** Modelled from the spec: the coarse grammar of the absent
    [SemverParser] (section 4.2): an optional leading [v], [MAJOR.MINOR] or
    [MAJOR.MINOR.PATCH], an optional [-PRERELEASE] and an optional [+BUILD].
    The result is the fields, an absent one empty. *)
Definition coarse (tag : string) : option VersionInfo :=
  let (main, build) := cutAt "+" (stripV tag) in
  let (core, pre) := cutAt "-" main in
  if suffixOk pre && suffixOk build then
    match splitOn "." core with
    | [a; b] =>
        if numeric a && numeric b
        then Some (mkInfo a b "" (optional pre) (optional build)) else None
    | [a; b; c] =>
        if numeric a && numeric b && numeric c
        then Some (mkInfo a b c (optional pre) (optional build)) else None
    | _ => None
    end
  else None.

(** Modelled from the spec: a first part that is plausible as a calendar year
    (section 4.2): two digits at or above the threshold, or four digits in the
    2000s range. *)
Definition plausibleYear (p : YearPolicy) (y : string) : bool :=
  ((String.length y =? 2) && (shortYearThreshold p <=? value y))
  || ((String.length y =? 4) && (modernYearMin p <=? value y)
       && (value y <=? modernYearMax p)).

(** Modelled from the spec: the semver-calver ambiguity of section 4.2: the
    first part is plausible as a calendar year.  Section 4.2 words the rule
    for tags of two numeric parts; scenario 2 of section 8 ([2024.01.15] is
    CALVER under AUTO, where Semver is probed first) and the tests of the
    repository ([2024.01.15] and [24.01.15] are rejected) need it for tags
    of three parts as well, so it does not look at the patch. *)
Definition calverAmbiguous (p : YearPolicy) (i : VersionInfo) : bool :=
  plausibleYear p (major i).

(** Modelled from the spec: [SemverParser.canParse] (section 4.2). *)
Definition canParse (this : t) (tag : string) : bool :=
  match coarse tag with
  | Some i => negb (calverAmbiguous (policy this) i)
  | None => false
  end.

(** Modelled from the spec: a separator and a part, when the part is
    present (section 4.2, reconstruction). *)
Definition section (sep part : string) : string :=
  if JS.truthy part then sep ++ part else "".

(** Modelled from the spec: the reconstruction of section 4.2, which
    reproduces the matched groups and keeps the [v] of the tag. *)
Definition reconstructVersion (this : t) (i : VersionInfo) (tag : string) : string :=
  (match tag with String "v" _ => "v" | _ => "" end)
  ++ major i ++ "." ++ minor i ++ section "." (patch i)
  ++ section "-" (prerelease i) ++ section "+" (build i).

#[export] Instance base : BaseParser t :=
  @Build_BaseParser t (fun _ => SEMVER) reconstructVersion.

(** Modelled from the spec: [SemverParser.parse] (sections 4.1, 4.2 and 4.6):
    a tag its [canParse] rejects gets the failure result. *)
Definition parse (this : t) (tag : string) : ParseResult :=
  match coarse tag with
  | Some i =>
      if calverAmbiguous (policy this) i then createFailedResult tag
      else createSuccessResult this tag i
  | None => createFailedResult tag
  end.

End SemverParser.

Module CalverParser.

Import Lex.

(** Modelled from the spec: an instance of the absent [CalverParser]; it
    holds the year constants. *)
Record t : Type := mk { policy : YearPolicy }.

(** Modelled from the spec: the year test of section 4.3: four digits in the
    modern range, or two digits beside a month 01 .. 12. *)
Definition plausible (p : YearPolicy) (year month : string) : bool :=
  ((String.length year =? 4) && (modernYearMin p <=? value year)
     && (value year <=? modernYearMax p))
  || ((String.length year =? 2) && (1 <=? value month) && (value month <=? 12)).

(** Modelled from the spec: the grammar of the absent [CalverParser]
    (section 4.3): [YYYY.MM[.DD]] or [YY.MM[.DD]] with the prefix and the
    suffixes of the semver grammar; year, month and day are the fields. *)
Definition shape (this : t) (tag : string) : option VersionInfo :=
  match SemverParser.coarse tag with
  | Some i =>
      if (String.length (minor i) =? 2)
         && ((String.length (patch i) =? 0) || (String.length (patch i) =? 2))
         && plausible (policy this) (major i) (minor i)
      then Some i else None
  | None => None
  end.

(** Modelled from the spec: [CalverParser.canParse] (section 4.3). *)
Definition canParse (this : t) (tag : string) : bool :=
  match shape this tag with Some _ => true | None => false end.

(** Modelled from the spec: the reconstruction of section 4.3, the captured
    positions and the suffixes as in the semver one. *)
Definition reconstructVersion (this : t) (i : VersionInfo) (tag : string) : string :=
  SemverParser.reconstructVersion (SemverParser.mk (policy this)) i tag.

#[export] Instance base : BaseParser t :=
  @Build_BaseParser t (fun _ => CALVER) reconstructVersion.

(** Modelled from the spec: [CalverParser.parse] (sections 4.1 and 4.3). *)
Definition parse (this : t) (tag : string) : ParseResult :=
  match shape this tag with
  | Some i => createSuccessResult this tag i
  | None => createFailedResult tag
  end.

End CalverParser.

Module DateBasedParser.

Import Lex.

(** Modelled from the spec: an instance of the absent [DateBasedParser]; it
    has no field. *)
Record t : Type := mk { }.

(** Modelled from the spec: the grammar of the absent [DateBasedParser]
    (section 4.4), for the one shape the spec names: a run of eight digits
    read as [YYYYMMDD]. *)
Definition shape (tag : string) : option VersionInfo :=
  if (String.length tag =? 8) && allChars DockerParser.digit tag
  then Some (mkInfo (substring 0 4 tag) (substring 4 2 tag) (substring 6 2 tag) "" "")
  else None.

(** Modelled from the spec: [DateBasedParser.canParse] (section 4.4). *)
Definition canParse (this : t) (tag : string) : bool :=
  match shape tag with Some _ => true | None => false end.

(** Modelled from the spec: the spec gives no reconstruction for the
    date-based scheme; the digits are returned as they stand. *)
Definition reconstructVersion (this : t) (i : VersionInfo) (tag : string) : string :=
  major i ++ minor i ++ patch i.

#[export] Instance base : BaseParser t :=
  @Build_BaseParser t (fun _ => DATE_BASED) reconstructVersion.

(** Modelled from the spec: [DateBasedParser.parse] (sections 4.1 and 4.4). *)
Definition parse (this : t) (tag : string) : ParseResult :=
  match shape tag with
  | Some i => createSuccessResult this tag i
  | None => createFailedResult tag
  end.

End DateBasedParser.

Module ParserRegistry.

(** Modelled from the spec: the class [ParserRegistry] of the absent
    [src/parsers/index.ts] (section 4.6): the four recognizers, of which only
    the Docker one holds objects with state. *)
Record t : Type := mk {
  semver : SemverParser.t;
  calver : CalverParser.t;
  dateBased : DateBasedParser.t;
  docker : DockerParser.t
}.

(** Modelled from the spec: [new ParserRegistry()], for given year
    constants. *)
Definition new (p : YearPolicy) : t :=
  mk (SemverParser.mk p) (CalverParser.mk p) DateBasedParser.mk DockerParser.new.

(** The registry with its Docker recognizer in a later state. *)
Definition withDocker (R : t) (d : DockerParser.t) : t :=
  mk (semver R) (calver R) (dateBased R) d.

(** Modelled from the spec: auto-detection (section 4.6): the recognizers in
    the order Semver, Calver, DateBased, Docker; the first whose [canParse]
    accepts the tag parses it, and when none does the result is the failure
    result. *)
Definition autoDetect (R : t) (tag : string) : ParseResult * t :=
  if SemverParser.canParse (semver R) tag
  then (SemverParser.parse (semver R) tag, R)
  else if CalverParser.canParse (calver R) tag
  then (CalverParser.parse (calver R) tag, R)
  else if DateBasedParser.canParse (dateBased R) tag
  then (DateBasedParser.parse (dateBased R) tag, R)
  else
    let (accepted, d) := DockerParser.canParse (docker R) tag in
    if accepted
    then let (r, d') := DockerParser.parse d tag in (r, withDocker R d')
    else (createFailedResult tag, withDocker R d).

(** Modelled from the spec: [ParserRegistry.parse(tag, requestedScheme)]
    (section 4.6): a concrete scheme runs that recognizer alone, [AUTO] runs
    the detection.  The result and the registry after the call. *)
Definition parse (R : t) (tag : string) (requested : VersionType) : ParseResult * t :=
  match requested with
  | SEMVER => (SemverParser.parse (semver R) tag, R)
  | CALVER => (CalverParser.parse (calver R) tag, R)
  | DATE_BASED => (DateBasedParser.parse (dateBased R) tag, R)
  | DOCKER =>
      let (r, d) := DockerParser.parse (docker R) tag in (r, withDocker R d)
  | AUTO => autoDetect R tag
  end.

End ParserRegistry.

(* ------------------------------------------------------------------ *)
(** ** Calls on a fresh instance *)

(** [parse] and [canParse] of a fresh instance, and [parse] of a fresh
    registry, as functions of the tag. *)
Definition dockerParse (tag : string) : ParseResult :=
  fst (DockerParser.parse DockerParser.new tag).

Definition dockerCanParse (tag : string) : bool :=
  fst (DockerParser.canParse DockerParser.new tag).

Definition registryParse (p : YearPolicy) (tag : string) (requested : VersionType)
    : ParseResult :=
  fst (ParserRegistry.parse (ParserRegistry.new p) tag requested).

(** Values of the year constants for the closed examples below.  The results
    on [v1] and [v1.2.3-] are the same for every value. *)
Definition samplePolicy : YearPolicy := mkPolicy 20 2000 2099.

(* ------------------------------------------------------------------ *)
(** ** The action ([src/index.ts]) and its logger ([src/logger.ts]) *)

(** The calls a run makes on [@actions/core], in the order it makes them. *)
Module Core.

Inductive call : Type :=
| info (message : string)
| warning (message : string)
| error (message : string)
| debug (message : string)
| setOutput (name value : string)
| setFailed (message : string).

End Core.

(** Class [Logger] of [src/logger.ts]: each method returns the calls it makes
    on [@actions/core]. *)
Module Logger.

Record t : Type := mk { verbose : bool }.

Definition info (this : t) (message : string) : list Core.call :=
  [Core.info message].

Definition warning (this : t) (message : string) : list Core.call :=
  [Core.warning message].

Definition error (this : t) (message : string) : list Core.call :=
  [Core.error message].

Definition debug (this : t) (message : string) : list Core.call :=
  if verbose this then [Core.info ("[DEBUG] " ++ message)]
  else [Core.debug message].

End Logger.

(** Modelled from the spec: the string values of the enumeration
    [VersionType] of [src/types.ts] (section 6, the scheme names). *)
Definition valueOf (t : VersionType) : string :=
  match t with
  | SEMVER => "semver"
  | CALVER => "calver"
  | DATE_BASED => "date-based"
  | DOCKER => "docker"
  | AUTO => "auto"
  end.

(** [Object.values(VersionType)]. *)
Definition values : list VersionType := [SEMVER; CALVER; DATE_BASED; DOCKER; AUTO].

(** The member of the enumeration a string is, if
    [Object.values(VersionType).includes] it. *)
Definition ofValue (s : string) : option VersionType :=
  find (fun t => String.eqb (valueOf t) s) values.

(** A [format] as the string it is at run time, [undefined] being shown as the
    empty string (both are falsy). *)
Definition formatValue (f : option VersionType) : string :=
  match f with Some t => valueOf t | None => "" end.

Definition formatIs (f : option VersionType) (t : VersionType) : bool :=
  match f with
  | Some u => String.eqb (valueOf u) (valueOf t)
  | None => false
  end.

(** [b.toString()] and the interpolation of a boolean. *)
Definition boolText (b : bool) : string := if b then "true" else "false".

Module Action.

Import JS.

(** What an awaited promise gives: its value, or the value it was rejected
    with, an [Error] with its message or anything else. *)
Inductive outcome (A : Type) : Type :=
| resolved (a : A)
| rejectedError (message : string)
| rejectedOther.

Arguments rejectedError {A} message.
Arguments rejectedOther {A}.

(** What [src/index.ts] imports and does not define: the inputs of the step
    ([core.getInput]), the two functions of [./git] with the outcome of the
    promise each returns, [extractCommit] of [./utils/commit-extractor] and
    [parse] of a new [ParserRegistry], both taken as functions that return a
    value. *)
Record env : Type := mkEnv {
  getInput : string -> string;
  getTag : string -> outcome (option string);
  getMostRecentTag : outcome (option string);
  extractCommit : string -> string;
  parse : string -> VersionType -> ParseResult
}.

(** [await] in the [try] block of [run]: a rejection goes to the [catch]
    clause, which calls [core.setFailed]. *)
Definition await (A : Type) (p : outcome A) (k : A -> list Core.call)
    : list Core.call :=
  match p with
  | resolved a => k a
  | rejectedError message => [Core.setFailed message]
  | rejectedOther => [Core.setFailed "Unknown error occurred"]
  end.

(** The tag of a [string | null] that passes [if (!tag)]: neither [null] nor
    empty. *)
Definition found (tag : option string) : option string :=
  match tag with
  | Some s => if truthy s then Some s else None
  | None => None
  end.

(** [setEmptyOutputs]. *)
Definition setEmptyOutputs : list Core.call :=
  [ Core.setOutput "isValid" "false";
    Core.setOutput "version" "";
    Core.setOutput "format" "";
    Core.setOutput "major" "";
    Core.setOutput "minor" "";
    Core.setOutput "patch" "";
    Core.setOutput "prerelease" "";
    Core.setOutput "build" "";
    Core.setOutput "commit" "";
    Core.setOutput "year" "";
    Core.setOutput "month" "";
    Core.setOutput "day" "";
    Core.setOutput "hasPrerelease" "false";
    Core.setOutput "hasBuild" "false" ].

(** [run] from the line that parses the version type to the end of the [try]
    block, the tag being found.  The [catch] clause around the version type
    is never entered, nothing in its block throws.  The three symbols of the
    messages that lie outside U+00FF are written as the source file has
    them. *)
Definition classify (logger : Logger.t) (E : env) (versionTypeInput tag : string)
    : list Core.call :=
  let lowered := toLowerCase versionTypeInput in
  let versionType := match ofValue lowered with Some t => t | None => AUTO end in
  let parseResult := parse E tag versionType in
  let i := info parseResult in
  let commit := extractCommit E tag in
  let fmt := orElse (formatValue (format parseResult)) "" in
  let dated := formatIs (format parseResult) CALVER
               || formatIs (format parseResult) DATE_BASED in
  let year := if dated then major i else "" in
  let month := if dated then minor i else "" in
  let day := if dated then patch i else "" in
  let semver := formatIs (format parseResult) SEMVER in
  let hasPrerelease := if semver then boolText (truthy (prerelease i)) else "false" in
  let hasBuild := if semver then boolText (truthy (build i)) else "false" in
  List.concat
    [ match ofValue lowered with
      | Some _ => []
      | None => Logger.debug logger
                  ("Invalid versionType '" ++ versionTypeInput
                     ++ "', falling back to auto")
      end;
      Logger.debug logger
        ("Parsing tag '" ++ tag ++ "' with versionType '"
           ++ valueOf versionType ++ "'");
      if isValid parseResult
      then Logger.info logger
             ("✓ Successfully parsed version: " ++ version parseResult
                ++ " (format: "
                ++ orElse (formatValue (format parseResult)) "unknown" ++ ")")
      else Logger.warning logger
             ("⚠ Failed to parse tag '" ++ tag ++ "' as valid version");
      Logger.debug logger
        ("Parse result: isValid=" ++ boolText (isValid parseResult));
      Logger.debug logger
        ("Version components: major=" ++ major i ++ ", minor=" ++ minor i
           ++ ", patch=" ++ patch i);
      if truthy (prerelease i)
      then Logger.debug logger ("Prerelease: " ++ prerelease i) else [];
      if truthy (build i)
      then Logger.debug logger ("Build: " ++ build i) else [];
      if truthy commit
      then Logger.debug logger ("Extracted commit SHA: " ++ commit)
      else Logger.debug logger "No commit SHA found in tag";
      Logger.debug logger ("Detected format: " ++ fmt);
      if truthy year
      then Logger.debug logger
             ("Date components: year=" ++ year ++ ", month=" ++ month
                ++ ", day=" ++ day)
      else [];
      if semver
      then Logger.debug logger
             ("Semver flags: hasPrerelease=" ++ hasPrerelease
                ++ ", hasBuild=" ++ hasBuild)
      else [];
      [ Core.setOutput "isValid" (boolText (isValid parseResult));
        Core.setOutput "version" (version parseResult);
        Core.setOutput "format" fmt;
        Core.setOutput "major" (major i);
        Core.setOutput "minor" (minor i);
        Core.setOutput "patch" (patch i);
        Core.setOutput "prerelease" (prerelease i);
        Core.setOutput "build" (build i);
        Core.setOutput "commit" commit;
        Core.setOutput "year" year;
        Core.setOutput "month" month;
        Core.setOutput "day" day;
        Core.setOutput "hasPrerelease" hasPrerelease;
        Core.setOutput "hasBuild" hasBuild ];
      if isValid parseResult
      then List.concat
             [ Logger.info logger ("📦 Version output: " ++ version parseResult);
               Logger.info logger ("   Format: " ++ fmt);
               if truthy (major i)
               then Logger.info logger
                      ("   Components: " ++ major i ++ "." ++ orElse (minor i) "0"
                         ++ "." ++ orElse (patch i) "0")
               else [] ]
      else Logger.warning logger
             ("⚠ Version output (original tag): " ++ version parseResult);
      Logger.debug logger "Action completed successfully" ].

(** [run]: the calls of one run of the action on [@actions/core]. *)
Definition run (E : env) : list Core.call :=
  let tagInput := getInput E "tag" in
  let versionTypeInput := orElse (getInput E "versionType") "auto" in
  let verboseInput := orElse (getInput E "verbose") "false" in
  let verbose := String.eqb (toLowerCase verboseInput) "true" in
  let logger := Logger.mk verbose in
  List.concat
    [ Logger.debug logger
        ("Input tag: " ++ orElse tagInput "(empty - will use most recent)");
      Logger.debug logger ("Input versionType: " ++ versionTypeInput);
      if truthy tagInput && negb (String.eqb (trim tagInput) "")
      then
        (Logger.debug logger ("Looking for specified tag: " ++ tagInput)
         ++ await (getTag E (trim tagInput)) (fun tag =>
              match found tag with
              | None =>
                  Logger.warning logger ("Tag '" ++ tagInput ++ "' not found")
                  ++ setEmptyOutputs
              | Some tag =>
                  Logger.info logger ("Found tag: " ++ tag)
                  ++ classify logger E versionTypeInput tag
              end))%list
      else
        (Logger.debug logger "No tag specified, getting most recent tag"
         ++ await (getMostRecentTag E) (fun tag =>
              match found tag with
              | None =>
                  Logger.warning logger "No tags found in repository"
                  ++ setEmptyOutputs
              | Some tag =>
                  Logger.info logger ("Using most recent tag: " ++ tag)
                  ++ classify logger E versionTypeInput tag
              end))%list ].

(** The outputs a list of calls sets, and the failures it reports. *)
Definition outputs (calls : list Core.call) : list (string * string) :=
  flat_map (fun c => match c with
                     | Core.setOutput name value => [(name, value)]
                     | _ => []
                     end) calls.

Definition failures (calls : list Core.call) : list string :=
  flat_map (fun c => match c with
                     | Core.setFailed message => [message]
                     | _ => []
                     end) calls.

(** The value an output was given last. *)
Definition output (name : string) (calls : list Core.call) : option string :=
  option_map snd
    (find (fun p => String.eqb (fst p) name) (rev (outputs calls))).

End Action.

(** The vocabulary of the properties of a run. *)
Module Scenario.

Import JS Action.

(** The names of the outputs, in the order [run] sets them. *)
Definition outputNames : list string :=
  [ "isValid"; "version"; "format"; "major"; "minor"; "patch"; "prerelease";
    "build"; "commit"; "year"; "month"; "day"; "hasPrerelease"; "hasBuild" ].

(** The environment with one input given another value. *)
Definition setInput (E : env) (name value : string) : env :=
  mkEnv (fun n => if String.eqb n name then value else getInput E n)
        (getTag E) (getMostRecentTag E) (extractCommit E) (parse E).

(** White space only; the empty string is blank. *)
Definition blank (s : string) : bool := Lex.allChars isWhiteSpace s.

(** The promise a run awaits for its tag. *)
Definition lookup (E : env) : outcome (option string) :=
  if blank (getInput E "tag") then getMostRecentTag E
  else getTag E (trim (getInput E "tag")).

(** The message of a rejection as the [catch] clause of [run] reports it. *)
Definition rejection (A : Type) (p : outcome A) : option string :=
  match p with
  | resolved _ => None
  | rejectedError message => Some message
  | rejectedOther => Some "Unknown error occurred"
  end.

(** The scheme a version type names in any casing, [auto] when it names
    none; and the scheme an input [versionType] asks for, an empty input
    standing for [auto]. *)
Definition resolve (versionTypeInput : string) : VersionType :=
  match ofValue (toLowerCase versionTypeInput) with
  | Some t => t
  | None => AUTO
  end.

Definition requested (input : string) : VersionType :=
  resolve (orElse input "auto").

(** Whether the input [verbose] switches the logger to verbose. *)
Definition verboseMode (E : env) : bool :=
  String.eqb (toLowerCase (orElse (getInput E "verbose") "false")) "true".

(** A call of [core.debug] turned into the line a verbose logger writes. *)
Definition promote (c : Core.call) : Core.call :=
  match c with
  | Core.debug message => Core.info ("[DEBUG] " ++ message)
  | _ => c
  end.

(** What a call may be in a run whose logger has the given mode: never
    [core.error]; [core.debug] only when not verbose; an info line that
    starts with the debug mark only when verbose. *)
Definition channelOk (verbose : bool) (c : Core.call) : bool :=
  match c with
  | Core.error _ => false
  | Core.debug _ => negb verbose
  | Core.info message => verbose || negb (prefix "[DEBUG] " message)
  | _ => true
  end.

(** An environment for the closed examples: the three inputs as given, every
    tag present in the repository, [2024.01.15] its most recent tag, no
    commit in a tag, and the registry of this development. *)
Definition sampleEnv (tagInput versionType verbose : string) : env :=
  mkEnv (fun name => if String.eqb name "tag" then tagInput
                     else if String.eqb name "versionType" then versionType
                     else if String.eqb name "verbose" then verbose
                     else "")
        (fun t => resolved (Some t))
        (resolved (Some "2024.01.15"))
        (fun _ => "")
        (registryParse samplePolicy).

(** The same environment with a repository that has no tag at all, and one
    whose [git] fails. *)
Definition emptyRepository (tagInput : string) : env :=
  mkEnv (getInput (sampleEnv tagInput "" ""))
        (fun _ => resolved None) (resolved None)
        (fun _ => "") (registryParse samplePolicy).

Definition brokenRepository (tagInput message : string) : env :=
  mkEnv (getInput (sampleEnv tagInput "" ""))
        (fun _ => rejectedError message) (rejectedError message)
        (fun _ => "") (registryParse samplePolicy).

End Scenario.

(* ------------------------------------------------------------------ *)
(** ** The vocabulary of the properties *)

(** The shape [v?MAJOR[.MINOR[.PATCH]][-SUFFIX]] written out: the prefix, the
    major number, the dotted part (a minor number, and a patch number only
    after a minor one) and the suffix. *)
Module DockerGrammar.

Import Lex DockerParser.

(** The text of the dotted part: nothing, [.MINOR] or [.MINOR.PATCH]. *)
Definition dottedText (mp : option (string * option string)) : string :=
  match mp with
  | None => ""
  | Some (m, None) => "." ++ m
  | Some (m, Some p) => "." ++ m ++ "." ++ p
  end.

(** The text of the suffix: nothing or [-SUFFIX]. *)
Definition suffixText (suffix : option string) : string :=
  match suffix with
  | None => ""
  | Some s => "-" ++ s
  end.

(** The tag made of the four parts. *)
Definition assemble (v major : string) (mp : option (string * option string))
    (suffix : option string) : string :=
  v ++ major ++ dottedText mp ++ suffixText suffix.

(** The prefix is empty or the letter [v] in either case. *)
Definition prefixOk (v : string) : bool :=
  String.eqb v "" || String.eqb v "v" || String.eqb v "V".

(** MINOR and PATCH are non-empty runs of digits. *)
Definition dottedOk (mp : option (string * option string)) : bool :=
  match mp with
  | None => true
  | Some (m, None) => numeric m
  | Some (m, Some p) => numeric m && numeric p
  end.

(** SUFFIX is a non-empty run of letters, digits, underscores, dots and
    hyphens. *)
Definition suffixOk (suffix : option string) : bool :=
  match suffix with
  | None => true
  | Some s => JS.truthy s && allChars wordDotHyphen s
  end.

(** The four parts are well formed; MAJOR is a non-empty run of digits. *)
Definition wellFormed (v major : string) (mp : option (string * option string))
    (suffix : option string) : bool :=
  prefixOk v && numeric major && dottedOk mp && suffixOk suffix.

(** A version-like tag. *)
Definition VersionLike (tag : string) : Prop :=
  exists v major mp suffix,
    wellFormed v major mp suffix = true /\ tag = assemble v major mp suffix.

(** MINOR and PATCH of the dotted part, when present. *)
Definition minorOf (mp : option (string * option string)) : option string :=
  match mp with Some (m, _) => Some m | None => None end.

Definition patchOf (mp : option (string * option string)) : option string :=
  match mp with Some (_, p) => p | None => None end.

(** Docker's general tag grammar: 1 to 128 characters, the first one in
    [[A-Za-z0-9_]], the others in [[A-Za-z0-9_.-]]. *)
Definition generalTag (tag : string) : bool :=
  match tag with
  | EmptyString => false
  | String c rest =>
      word c && allChars wordDotHyphen rest && (String.length tag <=? 128)
  end.

(** The special tags, in any casing. *)
Definition special (tag : string) : bool :=
  JS.includes (specialTags DockerParser.new) (JS.toLowerCase tag).

(** Letters, digits, underscore, dot and hyphen only, the first character not
    a dot or a hyphen: the general grammar without its bound on the length. *)
Definition lexical (tag : string) : bool :=
  match tag with
  | EmptyString => false
  | String c rest => word c && allChars wordDotHyphen rest
  end.

(** No hyphen in the text. *)
Definition noHyphen (s : string) : bool :=
  allChars (fun c => negb (hyphen c)) s.

(** The character [c], [n] times. *)
Fixpoint repeatChar (c : ascii) (n : nat) : string :=
  match n with
  | 0 => EmptyString
  | S n' => String c (repeatChar c n')
  end.

End DockerGrammar.

(* ------------------------------------------------------------------ *)
(** ** Closed forms used in the proofs *)

Module ClosedForms.

Import RegExp Lex DockerParser DockerGrammar.

(** What [span] returns: the two parts make up the string, the first one
    passes the test, the second one does not start with a character that
    passes it. *)
Definition stopsAt (p : ascii -> bool) (b : string) : Prop :=
  match b with
  | EmptyString => True
  | String c _ => p c = false
  end.

(** A continuation that fails on every input starting with a character of
    the set [p]. *)
Definition rejects (p : ascii -> bool) (k : Continuation) : Prop :=
  forall pos c rest caps, p c = true -> k pos (String c rest) caps = None.

(** The bounds of a quantifier. *)
Definition withinMax (n : nat) (max : option nat) : bool :=
  match max with
  | Some m => n <=? m
  | None => true
  end.

(** The lower bound of a quantifier is not above its upper bound (a pattern
    written otherwise is a syntax error). *)
Definition minBelowMax (min : nat) (max : option nat) : Prop :=
  match max with
  | Some m => min <= m
  | None => True
  end.

(** The separator and the run of an optional group [(?:sep(p+))?]: the text
    the group captures and what follows it. *)
Definition sepRun (sep p : ascii -> bool) (s : string) : option (string * string) :=
  match s with
  | String c s' =>
      if sep c
      then let (a, b) := span p s' in
           if JS.truthy a then Some (a, b) else None
      else None
  | EmptyString => None
  end.

(** The attempt at index 0. *)
Definition matchAtStart (r : regex) (S : string) : MatchResult :=
  matcher r 0 S (initialCaptures r) accept.

(** An option holds a value. *)
Definition isSome {A : Type} (o : option A) : bool :=
  match o with Some _ => true | None => false end.

(** The pieces of [versionSource]. *)
Definition majorGroup : regex := Group 1 (Quant digit 1 None).
Definition optMinor : regex := Opt (Seq (CharSet dot) (Group 2 (Quant digit 1 None))).
Definition optPatch : regex := Opt (Seq (CharSet dot) (Group 3 (Quant digit 1 None))).
Definition optSuffix : regex :=
  Opt (Seq (CharSet hyphen) (Group 4 (Quant wordDotHyphen 1 None))).

(** What the pattern does from each of its positions on, without the search:
    each function is the matcher of the rest of the pattern. *)
Definition atEnd : Continuation :=
  fun pos rest caps =>
    match rest with
    | EmptyString => Some (pos, caps)
    | String _ _ => None
    end.

Definition tailSuffix : Continuation :=
  fun pos rest caps =>
    match sepRun hyphen wordDotHyphen rest with
    | Some (a, b) =>
        atEnd (S pos + String.length a) b
          (setCapture 4 (Some a) (setCapture 4 None caps))
    | None => atEnd pos rest caps
    end.

Definition tailPatch : Continuation :=
  fun pos rest caps =>
    match sepRun dot digit rest with
    | Some (a, b) =>
        tailSuffix (S pos + String.length a) b
          (setCapture 3 (Some a) (setCapture 3 None caps))
    | None => tailSuffix pos rest caps
    end.

Definition tailMinor : Continuation :=
  fun pos rest caps =>
    match sepRun dot digit rest with
    | Some (a, b) =>
        tailPatch (S pos + String.length a) b
          (setCapture 2 (Some a) (setCapture 2 None caps))
    | None => tailPatch pos rest caps
    end.

Definition tailMajor : Continuation :=
  fun pos rest caps =>
    let (a, b) := span digit rest in
    if JS.truthy a
    then tailMinor (pos + String.length a) b (setCapture 1 (Some a) caps)
    else None.

Definition fromStart (tag : string) : MatchResult :=
  let (v, rest) := span letterV tag in
  if String.length v <=? 1
  then tailMajor (String.length v) rest [None; None; None; None; None]
  else None.

(** A Docker recognizer with the fields of a fresh one, whatever the
    [lastIndex] of its two expression objects. *)
Definition withLastIndex (n m : nat) : DockerParser.t :=
  DockerParser.mk (specialTags DockerParser.new)
    (RegExp.mk versionSource false false n) (RegExp.mk tagSource false false m).

(** The optional patch part of a tag, and its well-formedness. *)
Definition patchText (po : option string) : string :=
  match po with
  | None => ""
  | Some p => "." ++ p
  end.

Definition patchOk (po : option string) : bool :=
  match po with
  | None => true
  | Some p => numeric p
  end.

(** The remainder after the first hyphen, as [parse] takes it. *)
Definition remainder (tag : string) : string :=
  if (JS.indexOf tag "-" =? -1)%Z then ""
  else JS.sliceFrom tag (JS.indexOf tag "-" + 1)%Z.

(** The result of [parse] on a fresh instance. *)
Definition parsed (tag : string) : ParseResult :=
  if special tag
  then createSuccessResult DockerParser.new tag (mkInfo "" "" "" "" "")
  else
    match fromStart tag with
    | Some (_, caps) =>
        createSuccessResult DockerParser.new tag
          (mkInfo (element caps 1) (element caps 2) (element caps 3) (element caps 4) "")
    | None =>
        if generalTag tag
        then createSuccessResult DockerParser.new tag (mkInfo "" "" "" (remainder tag) "")
        else createFailedResult tag
    end.

(** Letters a to z. *)
Definition lowerLetter (c : ascii) : bool := JS.inRange 97 122 c.

(** No character [c] in the text. *)
Definition without (c : ascii) (s : string) : bool :=
  allChars (fun d => negb (Ascii.eqb d c)) s.

(** A property of characters that holds by inspection of the 256 of them. *)
Ltac by_cases_on c :=
  destruct c as [[] [] [] [] [] [] [] []]; vm_compute; intros;
  first [reflexivity | discriminate | congruence].

End ClosedForms.

(* ------------------------------------------------------------------ *)
(** ** The model on the examples of the repository *)

Section RepositoryExamples.

(** The tags the header of [docker.ts] lists as supported. *)
Example docker_supported_tags :
  map dockerCanParse
    ["latest"; "stable"; "1.2.3"; "v1.2.3"; "1.2.3-alpine"; "v1.2.3-ubuntu";
     "1.2.3-alpine-3.18"]
  = [true; true; true; true; true; true; true].
Proof. vm_compute. reflexivity. Qed.

Example docker_suffix_with_hyphens :
  dockerParse "1.2.3-alpine-3.18"
  = mkResult true "1.2.3-alpine-3.18" (mkInfo "1" "2" "3" "alpine-3.18" "") (Some DOCKER).
Proof. vm_compute. reflexivity. Qed.

(** The tests of [SemverParser.canParse]. *)
Example semver_tests_accepted :
  map (SemverParser.canParse (SemverParser.mk samplePolicy))
    ["v1.2.3"; "1.2.3"; "v1.2"; "1.2"; "v1.2.3-alpha.1"; "1.2.3-beta.2";
     "v1.2-alpha.1"; "1.2-beta.2"; "v1.2.3+build.1"; "1.2.3+20240115";
     "v1.2.3-alpha.1+build.1"]
  = [true; true; true; true; true; true; true; true; true; true; true].
Proof. vm_compute. reflexivity. Qed.

Example semver_tests_rejected :
  map (SemverParser.canParse (SemverParser.mk samplePolicy))
    ["v1"; "1"; "abc"; "v1.2.3-"; "2024.01.15"; "24.01.15"; "2024.01"; "24.01"]
  = [false; false; false; false; false; false; false; false].
Proof. vm_compute. reflexivity. Qed.

(** The tests of [SemverParser.parse]. *)
Example semver_tests_parse :
  SemverParser.parse (SemverParser.mk samplePolicy) "v1.2.3"
    = mkResult true "v1.2.3" (mkInfo "1" "2" "3" "" "") (Some SEMVER)
  /\ SemverParser.parse (SemverParser.mk samplePolicy) "v1.2"
    = mkResult true "v1.2" (mkInfo "1" "2" "" "" "") (Some SEMVER)
  /\ SemverParser.parse (SemverParser.mk samplePolicy) "3.23-d34fa4d2-ls4"
    = mkResult true "3.23-d34fa4d2-ls4" (mkInfo "3" "23" "" "d34fa4d2-ls4" "")
        (Some SEMVER)
  /\ info (SemverParser.parse (SemverParser.mk samplePolicy) "v1.2.3-alpha.1+build.1")
    = mkInfo "1" "2" "3" "alpha.1" "build.1"
  /\ SemverParser.parse (SemverParser.mk samplePolicy) "invalid"
    = mkResult false "invalid" (mkInfo "" "" "" "" "") None.
Proof. repeat split; vm_compute; reflexivity. Qed.

(** Scenarios 1 and 2 of section 8 of the spec. *)
Example registry_scenarios :
  registryParse samplePolicy "v1.2.3" AUTO
    = mkResult true "v1.2.3" (mkInfo "1" "2" "3" "" "") (Some SEMVER)
  /\ registryParse samplePolicy "2024.01.15" AUTO
    = mkResult true "2024.01.15" (mkInfo "2024" "01" "15" "" "") (Some CALVER).
Proof. split; vm_compute; reflexivity. Qed.

End RepositoryExamples.
(* ------------------------------------------------------------------ *)
(** ** Strings: basic facts *)

Section StringFacts.

Import Lex ClosedForms.

Lemma append_empty_r (s : string) : s ++ "" = s.
Proof. induction s as [|c s IH]; simpl; [reflexivity | now rewrite IH]. Qed.

Lemma append_assoc (a b c : string) : (a ++ b) ++ c = a ++ (b ++ c).
Proof. induction a as [|x a IH]; simpl; [reflexivity | now rewrite IH]. Qed.

Lemma length_append (a b : string) :
  String.length (a ++ b) = String.length a + String.length b.
Proof. induction a as [|x a IH]; simpl; [reflexivity | now rewrite IH]. Qed.

Lemma substring_prefix (a b : string) :
  substring 0 (String.length a) (a ++ b) = a.
Proof.
  induction a as [|x a IH]; simpl.
  - destruct b; reflexivity.
  - now rewrite IH.
Qed.

Lemma substring_all (s : string) : substring 0 (String.length s) s = s.
Proof.
  rewrite <- (append_empty_r s) at 2. apply substring_prefix.
Qed.

Lemma allChars_append (p : ascii -> bool) (a b : string) :
  allChars p (a ++ b) = allChars p a && allChars p b.
Proof.
  induction a as [|x a IH]; simpl; [reflexivity|].
  now rewrite IH, andb_assoc.
Qed.

Lemma allChars_impl (p q : ascii -> bool) (s : string) :
  (forall c, p c = true -> q c = true) ->
  allChars p s = true -> allChars q s = true.
Proof.
  intros Hpq. induction s as [|c s IH]; simpl; [reflexivity|].
  intros H. apply andb_true_iff in H as [Hc Hs].
  now rewrite (Hpq _ Hc), (IH Hs).
Qed.


Lemma span_spec (p : ascii -> bool) (s : string) :
  let (a, b) := span p s in
  s = a ++ b /\ allChars p a = true /\ stopsAt p b.
Proof.
  induction s as [|c s IH]; simpl.
  - repeat split.
  - destruct (p c) eqn:Hc.
    + destruct (span p s) as [a b]. destruct IH as (E & Ha & Hb).
      simpl. rewrite Hc, Ha. subst s. repeat split; assumption.
    + simpl. repeat split. exact Hc.
Qed.

Lemma span_unique (p : ascii -> bool) (a b : string) :
  allChars p a = true -> stopsAt p b -> span p (a ++ b) = (a, b).
Proof.
  intros Ha Hb. induction a as [|c a IH]; simpl in *.
  - destruct b as [|d b]; simpl in *; [reflexivity | now rewrite Hb].
  - apply andb_true_iff in Ha as [Hc Ha]. rewrite Hc, (IH Ha). reflexivity.
Qed.

End StringFacts.

(* ------------------------------------------------------------------ *)
(** ** The matcher: general facts *)

Module RegExpFacts.

Import RegExp Lex ClosedForms.

(** Matching depends on the continuation through its values only. *)
Lemma repeatSet_ext (p : ascii -> bool) (k1 k2 : Continuation) :
  (forall pos rest caps, k1 pos rest caps = k2 pos rest caps) ->
  forall rest min max pos caps,
    repeatSet p min max pos rest caps k1 = repeatSet p min max pos rest caps k2.
Proof.
  intros E. induction rest as [|c rest IH]; intros min max pos caps.
  - simpl. rewrite E. reflexivity.
  - simpl. rewrite E, IH. reflexivity.
Qed.

Lemma matcher_ext (r : regex) :
  forall k1 k2 : Continuation,
    (forall pos rest caps, k1 pos rest caps = k2 pos rest caps) ->
    forall pos rest caps,
      matcher r pos rest caps k1 = matcher r pos rest caps k2.
Proof.
  induction r as [ | | | p | a IHa b IHb | i a IHa | p lo hi | a IHa ];
    intros k1 k2 E pos rest caps; simpl.
  - apply E.
  - now rewrite E.
  - now rewrite E.
  - destruct rest as [|c rest]; [reflexivity|]. now rewrite E.
  - apply IHa. intros. now apply IHb.
  - apply IHa. intros. apply E.
  - now apply repeatSet_ext.
  - rewrite E.
    rewrite (IHa _ (fun pos' rest' caps' =>
                      if pos' =? pos then None else k2 pos' rest' caps')).
    + reflexivity.
    + intros. now rewrite E.
Qed.




(** A greedy quantifier in front of such a continuation takes the whole run
    of characters of the set, or fails: no shorter run can succeed. *)
Lemma repeatSet_greedy (p : ascii -> bool) (k : Continuation) :
  rejects p k ->
  forall rest min max pos caps,
    minBelowMax min max ->
    repeatSet p min max pos rest caps k =
      let (a, b) := span p rest in
      if (min <=? String.length a) && withinMax (String.length a) max
      then k (pos + String.length a) b caps
      else None.
Proof.
  intros Hk. induction rest as [|c rest IH]; intros min max pos caps Hmm.
  - simpl. rewrite Nat.add_0_r.
    destruct max as [[|m]|]; simpl in *.
    + assert (min = 0) by lia. subst. reflexivity.
    + destruct min; reflexivity.
    + destruct min; reflexivity.
  - simpl. destruct (p c) eqn:Hc.
    + specialize (IH (Nat.pred min) (option_map Nat.pred max) (S pos) caps).
      destruct (span p rest) as [a b]. simpl String.length.
      replace (pos + S (String.length a)) with (S pos + String.length a) by lia.
      destruct max as [[|m]|]; simpl in *.
      * assert (min = 0) by lia. subst. simpl. now apply Hk.
      * rewrite IH by lia.
        destruct min as [|min]; simpl.
        -- destruct (String.length a <=? m);
             [ destruct (k (S (pos + String.length a)) b caps); [reflexivity|now apply Hk]
             | now apply Hk ].
        -- reflexivity.
      * rewrite IH by exact I.
        destruct min as [|min]; simpl.
        -- destruct (k (S (pos + String.length a)) b caps); [reflexivity|now apply Hk].
        -- reflexivity.
    + simpl. rewrite Nat.add_0_r.
      destruct max as [[|m]|]; simpl in *.
      * assert (min = 0) by lia. subst. reflexivity.
      * destruct min; reflexivity.
      * destruct min; reflexivity.
Qed.


Lemma matcher_group_run (i : nat) (p : ascii -> bool) (k : Continuation)
    pos rest caps :
  rejects p k ->
  matcher (Group i (Quant p 1 None)) pos rest caps k =
    let (a, b) := span p rest in
    if JS.truthy a
    then k (pos + String.length a) b (setCapture i (Some a) caps)
    else None.
Proof.
  intros Hk. simpl.
  rewrite repeatSet_greedy; [ | | exact I].
  - pose proof (span_spec p rest) as Hs.
    destruct (span p rest) as [a b]. destruct Hs as (E & _ & _).
    rewrite andb_true_r. destruct a as [|c a]; [reflexivity|].
    simpl JS.truthy. cbv iota.
    replace (1 <=? String.length (String c a)) with true by (symmetry; apply Nat.leb_le; simpl; lia).
    replace (pos + String.length (String c a) - pos) with (String.length (String c a)) by lia.
    rewrite E, substring_prefix. reflexivity.
  - intros pos' c r caps' Hc. now apply Hk.
Qed.

Lemma matcher_opt_sep (sep : ascii -> bool) (i : nat) (p : ascii -> bool)
    (k : Continuation) pos rest caps :
  rejects p k ->
  matcher (Opt (Seq (CharSet sep) (Group i (Quant p 1 None)))) pos rest caps k =
    match sepRun sep p rest with
    | Some (a, b) =>
        match k (S pos + String.length a) b
                (setCapture i (Some a) (setCapture i None caps)) with
        | Some z => Some z
        | None => k pos rest caps
        end
    | None => k pos rest caps
    end.
Proof.
  intros Hk.
  change (matcher (Opt (Seq (CharSet sep) (Group i (Quant p 1 None)))) pos rest caps k)
    with (match
            match rest with
            | String c rest' =>
                if sep c
                then matcher (Group i (Quant p 1 None)) (S pos) rest'
                       (setCapture i None caps)
                       (fun pos' rest'' caps' =>
                          if pos' =? pos then None else k pos' rest'' caps')
                else None
            | EmptyString => None
            end
          with
          | Some z => Some z
          | None => k pos rest caps
          end).
  destruct rest as [|c rest]; [reflexivity|]. unfold sepRun.
  destruct (sep c); [|reflexivity].
  rewrite matcher_group_run.
  - destruct (span p rest) as [a b]. destruct (JS.truthy a); [|reflexivity].
    replace (S pos + String.length a =? pos) with false
      by (symmetry; apply Nat.eqb_neq; lia).
    reflexivity.
  - intros pos' d r caps' Hd. rewrite (Hk _ _ _ _ Hd).
    now destruct (pos' =? pos).
Qed.

(** An expression that starts with [^] matches at index 0 or nowhere. *)
Lemma searchFrom_anchored (r : regex) (rest : string) :
  forall pos, 0 < pos -> searchFrom (Seq AssertStart r) false pos rest = None.
Proof.
  induction rest as [|c rest IH]; intros pos Hpos.
  - simpl. destruct pos; [lia|reflexivity].
  - simpl. destruct pos; [lia|]. simpl. apply IH. lia.
Qed.


(** [exec] for an expression that starts with [^] and has neither the [g] nor
    the [y] flag: one attempt at index 0, and the object is left as it was,
    whatever its [lastIndex]. *)
Lemma exec_anchored (r : regex) (n : nat) (S : string) :
  exec (mk (Seq AssertStart r) false false n) S =
    (match matchAtStart (Seq AssertStart r) S with
     | Some (e, caps) => Some (setCapture 0 (Some (substring 0 e S)) caps)
     | None => None
     end,
     mk (Seq AssertStart r) false false n).
Proof.
  unfold exec. cbn [global sticky source orb].
  cbn [Nat.ltb Nat.leb]. rewrite Nat.sub_0_r.
  replace (substring 0 (String.length S) S) with S by (symmetry; apply substring_all).
  unfold matchAtStart.
  destruct S as [|c S']; cbn [searchFrom].
  - destruct (matcher (Seq AssertStart r) 0 EmptyString
                (initialCaptures (Seq AssertStart r)) accept) as [[e caps]|];
      [rewrite Nat.sub_0_r|]; reflexivity.
  - destruct (matcher (Seq AssertStart r) 0 (String c S')
                (initialCaptures (Seq AssertStart r)) accept) as [[e caps]|].
    + rewrite Nat.sub_0_r. reflexivity.
    + rewrite searchFrom_anchored by lia. reflexivity.
Qed.

End RegExpFacts.

(* ------------------------------------------------------------------ *)
(** ** The two patterns of the Docker recognizer *)


Module DockerPatterns.

Import RegExp Lex DockerParser DockerGrammar ClosedForms RegExpFacts.


Lemma letterV_not_digit c : letterV c = true -> digit c = false.
Proof. by_cases_on c. Qed.

Lemma digit_not_dot c : digit c = true -> dot c = false.
Proof. by_cases_on c. Qed.

Lemma digit_not_hyphen c : digit c = true -> hyphen c = false.
Proof. by_cases_on c. Qed.

Lemma digit_not_letterV c : digit c = true -> letterV c = false.
Proof. by_cases_on c. Qed.

Lemma dot_not_hyphen c : dot c = true -> hyphen c = false.
Proof. by_cases_on c. Qed.

Lemma digit_word c : digit c = true -> word c = true.
Proof. by_cases_on c. Qed.

Lemma letterV_word c : letterV c = true -> word c = true.
Proof. by_cases_on c. Qed.

Lemma word_wordDotHyphen c : word c = true -> wordDotHyphen c = true.
Proof. by_cases_on c. Qed.

Lemma digit_wordDotHyphen c : digit c = true -> wordDotHyphen c = true.
Proof. intros H. now apply word_wordDotHyphen, digit_word. Qed.

Lemma dot_eq c : dot c = true -> c = "."%char.
Proof. unfold dot. apply Ascii.eqb_eq. Qed.

Lemma hyphen_eq c : hyphen c = true -> c = "-"%char.
Proof. unfold hyphen. apply Ascii.eqb_eq. Qed.


Lemma versionSource_pieces :
  versionSource =
    Seq AssertStart (Seq (Quant letterV 0 (Some 1))
      (Seq majorGroup (Seq optMinor (Seq optPatch (Seq optSuffix AssertEnd))))).
Proof. reflexivity. Qed.

Lemma atEnd_rejects p : rejects p atEnd.
Proof. intros pos c rest caps _. reflexivity. Qed.

Lemma sepRun_starts sep p c rest :
  sep c = false -> sepRun sep p (String c rest) = None.
Proof. intros H. simpl. now rewrite H. Qed.

Lemma tailSuffix_rejects_digit : rejects digit tailSuffix.
Proof.
  intros pos c rest caps Hc. unfold tailSuffix.
  now rewrite sepRun_starts by now apply digit_not_hyphen.
Qed.

Lemma tailPatch_rejects_digit : rejects digit tailPatch.
Proof.
  intros pos c rest caps Hc. unfold tailPatch.
  rewrite sepRun_starts by now apply digit_not_dot.
  now apply tailSuffix_rejects_digit.
Qed.

Lemma tailMinor_rejects_digit : rejects digit tailMinor.
Proof.
  intros pos c rest caps Hc. unfold tailMinor.
  rewrite sepRun_starts by now apply digit_not_dot.
  now apply tailPatch_rejects_digit.
Qed.

Lemma tailMajor_rejects_letterV : rejects letterV tailMajor.
Proof.
  intros pos c rest caps Hc. unfold tailMajor. simpl.
  now rewrite (letterV_not_digit _ Hc).
Qed.

(** Whether the end of the pattern accepts does not depend on the index or on
    the captures. *)
Lemma tailSuffix_none pos caps pos' caps' rest :
  tailSuffix pos rest caps = None -> tailSuffix pos' rest caps' = None.
Proof.
  unfold tailSuffix. destruct (sepRun hyphen wordDotHyphen rest) as [[a b]|].
  - destruct b; simpl; [discriminate|reflexivity].
  - destruct rest; simpl; [discriminate|reflexivity].
Qed.

Lemma tailSuffix_dot c rest pos caps :
  dot c = true -> tailSuffix pos (String c rest) caps = None.
Proof.
  intros H. unfold tailSuffix.
  now rewrite sepRun_starts by now apply dot_not_hyphen.
Qed.

Lemma tailSuffix_eq pos rest caps :
  matcher (Seq optSuffix AssertEnd) pos rest caps accept = tailSuffix pos rest caps.
Proof.
  change (matcher (Seq optSuffix AssertEnd) pos rest caps accept)
    with (matcher optSuffix pos rest caps
            (fun pos' rest' caps' => matcher AssertEnd pos' rest' caps' accept)).
  rewrite (matcher_ext optSuffix _ atEnd)
    by (intros ? r ?; destruct r; reflexivity).
  unfold optSuffix. rewrite matcher_opt_sep by apply atEnd_rejects.
  unfold tailSuffix.
  destruct (sepRun hyphen wordDotHyphen rest) as [[a b]|] eqn:E; [|reflexivity].
  destruct b; [reflexivity|]. simpl.
  destruct rest; [discriminate E|reflexivity].
Qed.

Lemma tailPatch_eq pos rest caps :
  matcher (Seq optPatch (Seq optSuffix AssertEnd)) pos rest caps accept
  = tailPatch pos rest caps.
Proof.
  change (matcher (Seq optPatch (Seq optSuffix AssertEnd)) pos rest caps accept)
    with (matcher optPatch pos rest caps
            (fun pos' rest' caps' =>
               matcher (Seq optSuffix AssertEnd) pos' rest' caps' accept)).
  rewrite (matcher_ext optPatch _ tailSuffix) by (intros; apply tailSuffix_eq).
  unfold optPatch. rewrite matcher_opt_sep by apply tailSuffix_rejects_digit.
  unfold tailPatch.
  destruct (sepRun dot digit rest) as [[a b]|] eqn:E; [|reflexivity].
  destruct (tailSuffix (S pos + String.length a) b _); [reflexivity|].
  destruct rest as [|c rest]; [discriminate E|].
  simpl in E. destruct (dot c) eqn:Hc; [|discriminate E].
  now apply tailSuffix_dot.
Qed.

(** When the patch group can start where the minor group started, what the
    minor group would leave over is what the patch group leaves over. *)
Lemma tailPatch_after_run pos caps pos' caps' rest a b :
  sepRun dot digit rest = Some (a, b) ->
  tailPatch pos' b caps' = None ->
  tailPatch pos rest caps = None.
Proof.
  intros E H. unfold tailPatch at 1. rewrite E.
  destruct b as [|d b].
  - discriminate H.
  - unfold tailPatch in H.
    destruct (sepRun dot digit (String d b)) as [[a' b']|] eqn:E'.
    + simpl in E'. destruct (dot d) eqn:Hd; [|discriminate E'].
      now apply tailSuffix_dot.
    + eapply tailSuffix_none. exact H.
Qed.

Lemma tailMinor_eq pos rest caps :
  matcher (Seq optMinor (Seq optPatch (Seq optSuffix AssertEnd))) pos rest caps accept
  = tailMinor pos rest caps.
Proof.
  change (matcher (Seq optMinor (Seq optPatch (Seq optSuffix AssertEnd)))
            pos rest caps accept)
    with (matcher optMinor pos rest caps
            (fun pos' rest' caps' =>
               matcher (Seq optPatch (Seq optSuffix AssertEnd)) pos' rest' caps' accept)).
  rewrite (matcher_ext optMinor _ tailPatch) by (intros; apply tailPatch_eq).
  unfold optMinor. rewrite matcher_opt_sep by apply tailPatch_rejects_digit.
  unfold tailMinor.
  destruct (sepRun dot digit rest) as [[a b]|] eqn:E; [|reflexivity].
  destruct (tailPatch (S pos + String.length a) b _) eqn:H; [reflexivity|].
  eapply tailPatch_after_run; eassumption.
Qed.

Lemma tailMajor_eq pos rest caps :
  matcher (Seq majorGroup (Seq optMinor (Seq optPatch (Seq optSuffix AssertEnd))))
    pos rest caps accept
  = tailMajor pos rest caps.
Proof.
  change (matcher (Seq majorGroup (Seq optMinor (Seq optPatch (Seq optSuffix AssertEnd))))
            pos rest caps accept)
    with (matcher majorGroup pos rest caps
            (fun pos' rest' caps' =>
               matcher (Seq optMinor (Seq optPatch (Seq optSuffix AssertEnd)))
                 pos' rest' caps' accept)).
  rewrite (matcher_ext majorGroup _ tailMinor) by (intros; apply tailMinor_eq).
  unfold majorGroup. rewrite matcher_group_run by apply tailMinor_rejects_digit.
  reflexivity.
Qed.

(** The attempt of the version pattern at index 0, in closed form. *)
Lemma versionSource_match (tag : string) :
  matchAtStart versionSource tag = fromStart tag.
Proof.
  unfold matchAtStart. rewrite versionSource_pieces.
  change (initialCaptures _) with [@None string; None; None; None; None].
  change (matcher _ 0 tag [None; None; None; None; None] accept)
    with (repeatSet letterV 0 (Some 1) 0 tag [None; None; None; None; None]
            (fun pos' rest' caps' =>
               matcher (Seq majorGroup (Seq optMinor (Seq optPatch (Seq optSuffix AssertEnd))))
                 pos' rest' caps' accept)).
  rewrite (repeatSet_ext letterV _ tailMajor) by (intros; apply tailMajor_eq).
  rewrite repeatSet_greedy;
    [ | apply tailMajor_rejects_letterV | simpl; lia ].
  reflexivity.
Qed.

End DockerPatterns.

(* ------------------------------------------------------------------ *)
(** ** The version pattern matches the version-like tags, and only them *)

Module VersionShape.

Import RegExp Lex DockerParser DockerGrammar ClosedForms RegExpFacts DockerPatterns.


Lemma numeric_inv s :
  numeric s = true -> JS.truthy s = true /\ allChars digit s = true.
Proof. unfold numeric. intros H. now apply andb_true_iff in H. Qed.

Lemma sepRun_some sep p s a b :
  sepRun sep p s = Some (a, b) ->
  exists c, sep c = true /\ s = String c (a ++ b) /\ JS.truthy a = true
            /\ allChars p a = true /\ stopsAt p b.
Proof.
  destruct s as [|c s]; simpl; [discriminate|].
  destruct (sep c) eqn:Hc; [|discriminate].
  pose proof (span_spec p s) as Hs. destruct (span p s) as [a' b'].
  destruct Hs as (E & Ha & Hb).
  destruct (JS.truthy a') eqn:Ht; [|discriminate].
  intros H. injection H as <- <-. exists c. subst s. repeat split; assumption.
Qed.

Lemma sepRun_build sep p c a b :
  sep c = true -> JS.truthy a = true -> allChars p a = true -> stopsAt p b ->
  sepRun sep p (String c (a ++ b)) = Some (a, b).
Proof.
  intros Hc Ht Ha Hb. simpl. rewrite Hc, (span_unique p a b Ha Hb), Ht.
  reflexivity.
Qed.

Lemma stopsAt_suffixText suffix : stopsAt digit (suffixText suffix).
Proof. destruct suffix; simpl; [reflexivity|exact I]. Qed.

Lemma stopsAt_patchText po s : stopsAt digit s -> stopsAt digit (patchText po ++ s).
Proof. destruct po; simpl; [reflexivity|trivial]. Qed.

Lemma dottedText_patchText m po :
  dottedText (Some (m, po)) = "." ++ m ++ patchText po.
Proof. destruct po; simpl; [reflexivity|now rewrite append_empty_r]. Qed.

Lemma dottedOk_patchOk m po :
  dottedOk (Some (m, po)) = numeric m && patchOk po.
Proof. destruct po; simpl; [reflexivity|now rewrite andb_true_r]. Qed.

(** *** Every version-like tag matches *)

Lemma tailSuffix_text suffix pos c0 c1 c2 c3 :
  suffixOk suffix = true ->
  exists e, tailSuffix pos (suffixText suffix) [c0; c1; c2; c3; None]
            = Some (e, [c0; c1; c2; c3; suffix]).
Proof.
  intros H. destruct suffix as [s|]; simpl in *.
  - apply andb_true_iff in H as [Ht Ha].
    unfold tailSuffix.
    replace (String "-" s) with (String "-" (s ++ ""))
      by now rewrite append_empty_r.
    rewrite sepRun_build by (trivial; exact I).
    simpl. eexists. reflexivity.
  - eexists. reflexivity.
Qed.

Lemma tailPatch_text po suffix pos c0 c1 c2 :
  patchOk po = true -> suffixOk suffix = true ->
  exists e, tailPatch pos (patchText po ++ suffixText suffix) [c0; c1; c2; None; None]
            = Some (e, [c0; c1; c2; po; suffix]).
Proof.
  intros Hp Hs. destruct po as [p|]; simpl in *.
  - apply numeric_inv in Hp as [Ht Ha].
    unfold tailPatch.
    rewrite sepRun_build by (trivial; apply stopsAt_suffixText).
    simpl setCapture. apply tailSuffix_text. exact Hs.
  - unfold tailPatch.
    replace (sepRun dot digit (suffixText suffix)) with (@None (string * string))
      by (destruct suffix; reflexivity).
    apply tailSuffix_text. exact Hs.
Qed.

Lemma tailMinor_text mp suffix pos c0 c1 :
  dottedOk mp = true -> suffixOk suffix = true ->
  exists e, tailMinor pos (dottedText mp ++ suffixText suffix) [c0; c1; None; None; None]
            = Some (e, [c0; c1; minorOf mp; patchOf mp; suffix]).
Proof.
  intros Hd Hs. destruct mp as [[m po]|].
  - rewrite dottedOk_patchOk in Hd. apply andb_true_iff in Hd as [Hm Hp].
    apply numeric_inv in Hm as [Ht Ha].
    rewrite dottedText_patchText. simpl.
    rewrite append_assoc. unfold tailMinor.
    rewrite sepRun_build by (trivial; apply stopsAt_patchText, stopsAt_suffixText).
    simpl setCapture. apply tailPatch_text; assumption.
  - simpl dottedText. simpl append. unfold tailMinor.
    replace (sepRun dot digit (suffixText suffix)) with (@None (string * string))
      by (destruct suffix; reflexivity).
    apply (tailPatch_text None); [reflexivity|exact Hs].
Qed.

Lemma stopsAt_dottedText mp s : stopsAt digit s -> stopsAt digit (dottedText mp ++ s).
Proof. destruct mp as [[m [p|]]|]; simpl; [reflexivity|reflexivity|trivial]. Qed.

Lemma prefixOk_inv v : prefixOk v = true -> v = "" \/ v = "v" \/ v = "V".
Proof.
  unfold prefixOk. intros H.
  apply orb_true_iff in H as [H|H]; [apply orb_true_iff in H as [H|H]|];
    apply String.eqb_eq in H; auto.
Qed.

Lemma fromStart_assemble v major mp suffix :
  wellFormed v major mp suffix = true ->
  exists e, fromStart (assemble v major mp suffix)
            = Some (e, [None; Some major; minorOf mp; patchOf mp; suffix]).
Proof.
  unfold wellFormed. intros H.
  apply andb_true_iff in H as [H Hs]. apply andb_true_iff in H as [H Hd].
  apply andb_true_iff in H as [Hv Hm]. apply numeric_inv in Hm as [Ht Ha].
  unfold fromStart, assemble.
  assert (Hstop : stopsAt letterV (major ++ dottedText mp ++ suffixText suffix)).
  { destruct major as [|d major]; [discriminate Ht|]. simpl in *.
    apply andb_true_iff in Ha as [Hd' _]. now apply digit_not_letterV. }
  assert (Hv' : allChars letterV v = true /\ (String.length v <=? 1) = true).
  { destruct (prefixOk_inv _ Hv) as [->|[->| ->]]; split; reflexivity. }
  destruct Hv' as [Hv1 Hv2].
  rewrite (span_unique letterV v _ Hv1 Hstop), Hv2.
  unfold tailMajor.
  rewrite (span_unique digit major _ Ha
             (stopsAt_dottedText mp _ (stopsAt_suffixText suffix))), Ht.
  simpl setCapture. apply tailMinor_text; assumption.
Qed.

(** *** Every match is a version-like tag *)

Lemma tailSuffix_inv pos rest c0 c1 c2 c3 e caps :
  tailSuffix pos rest [c0; c1; c2; c3; None] = Some (e, caps) ->
  exists suffix, suffixOk suffix = true /\ rest = suffixText suffix
                 /\ caps = [c0; c1; c2; c3; suffix].
Proof.
  unfold tailSuffix.
  destruct (sepRun hyphen wordDotHyphen rest) as [[a b]|] eqn:E.
  - apply sepRun_some in E as (c & Hc & -> & Ht & Ha & _).
    destruct b; simpl; [|discriminate].
    intros H. injection H as _ <-.
    exists (Some a). simpl. rewrite Ht, Ha, append_empty_r, (hyphen_eq _ Hc).
    repeat split.
  - destruct rest; simpl; [|discriminate].
    intros H. injection H as _ <-. exists None. repeat split.
Qed.

Lemma tailPatch_inv pos rest c0 c1 c2 e caps :
  tailPatch pos rest [c0; c1; c2; None; None] = Some (e, caps) ->
  exists po suffix, patchOk po = true /\ suffixOk suffix = true
                    /\ rest = patchText po ++ suffixText suffix
                    /\ caps = [c0; c1; c2; po; suffix].
Proof.
  unfold tailPatch.
  destruct (sepRun dot digit rest) as [[a b]|] eqn:E.
  - apply sepRun_some in E as (c & Hc & -> & Ht & Ha & _).
    simpl setCapture. intros H.
    apply tailSuffix_inv in H as (suffix & Hs & -> & ->).
    exists (Some a), suffix. simpl. unfold numeric.
    rewrite Ht, Ha, (dot_eq _ Hc). repeat split. exact Hs.
  - intros H. apply tailSuffix_inv in H as (suffix & Hs & -> & ->).
    exists None, suffix. repeat split. exact Hs.
Qed.

Lemma tailMinor_inv pos rest c0 c1 e caps :
  tailMinor pos rest [c0; c1; None; None; None] = Some (e, caps) ->
  exists mp suffix, dottedOk mp = true /\ suffixOk suffix = true
                    /\ rest = dottedText mp ++ suffixText suffix
                    /\ caps = [c0; c1; minorOf mp; patchOf mp; suffix].
Proof.
  unfold tailMinor.
  destruct (sepRun dot digit rest) as [[a b]|] eqn:E.
  - apply sepRun_some in E as (c & Hc & -> & Ht & Ha & _).
    simpl setCapture. intros H.
    apply tailPatch_inv in H as (po & suffix & Hp & Hs & -> & ->).
    exists (Some (a, po)), suffix.
    rewrite dottedOk_patchOk, dottedText_patchText. unfold numeric.
    rewrite Ht, Ha, Hp, (dot_eq _ Hc). simpl. rewrite append_assoc.
    repeat split. exact Hs.
  - unfold tailPatch. rewrite E. intros H.
    apply tailSuffix_inv in H as (suffix & Hs & -> & ->).
    exists None, suffix. repeat split. exact Hs.
Qed.

Lemma letterV_prefix v :
  allChars letterV v = true -> (String.length v <=? 1) = true -> prefixOk v = true.
Proof.
  destruct v as [|c [|d v]]; simpl; intros Ha Hl; [reflexivity| |discriminate].
  rewrite andb_true_r in Ha. unfold letterV in Ha.
  apply orb_true_iff in Ha as [H|H]; apply Ascii.eqb_eq in H; subst; reflexivity.
Qed.

Lemma fromStart_inv tag e caps :
  fromStart tag = Some (e, caps) ->
  exists v major mp suffix,
    wellFormed v major mp suffix = true /\ tag = assemble v major mp suffix
    /\ caps = [None; Some major; minorOf mp; patchOf mp; suffix].
Proof.
  unfold fromStart.
  pose proof (span_spec letterV tag) as Hv. destruct (span letterV tag) as [v r1].
  destruct Hv as (-> & Hv & _).
  destruct (String.length v <=? 1) eqn:Hl; [|discriminate].
  unfold tailMajor.
  pose proof (span_spec digit r1) as Hm. destruct (span digit r1) as [major r2].
  destruct Hm as (-> & Hm & _).
  destruct (JS.truthy major) eqn:Ht; [|discriminate].
  simpl setCapture. intros H.
  apply tailMinor_inv in H as (mp & suffix & Hd & Hs & -> & ->).
  exists v, major, mp, suffix. unfold wellFormed, numeric, assemble.
  rewrite (letterV_prefix v Hv Hl), Ht, Hm, Hd, Hs. repeat split.
Qed.

(** *** A match ends at the end of the tag *)

Lemma tailSuffix_end pos rest caps e caps' :
  tailSuffix pos rest caps = Some (e, caps') -> e = pos + String.length rest.
Proof.
  unfold tailSuffix.
  destruct (sepRun hyphen wordDotHyphen rest) as [[a b]|] eqn:E.
  - apply sepRun_some in E as (c & _ & -> & _).
    destruct b; simpl; [|discriminate].
    intros H. injection H as <- _. rewrite length_append. simpl. lia.
  - destruct rest; simpl; [|discriminate].
    intros H. injection H as <- _. lia.
Qed.

Lemma tailPatch_end pos rest caps e caps' :
  tailPatch pos rest caps = Some (e, caps') -> e = pos + String.length rest.
Proof.
  unfold tailPatch.
  destruct (sepRun dot digit rest) as [[a b]|] eqn:E.
  - apply sepRun_some in E as (c & _ & -> & _).
    intros H. apply tailSuffix_end in H. simpl. rewrite length_append. lia.
  - apply tailSuffix_end.
Qed.

Lemma tailMinor_end pos rest caps e caps' :
  tailMinor pos rest caps = Some (e, caps') -> e = pos + String.length rest.
Proof.
  unfold tailMinor.
  destruct (sepRun dot digit rest) as [[a b]|] eqn:E.
  - apply sepRun_some in E as (c & _ & -> & _).
    intros H. apply tailPatch_end in H. simpl. rewrite length_append. lia.
  - apply tailPatch_end.
Qed.

Lemma fromStart_end tag e caps :
  fromStart tag = Some (e, caps) -> e = String.length tag.
Proof.
  unfold fromStart.
  pose proof (span_spec letterV tag) as Hv. destruct (span letterV tag) as [v r1].
  destruct Hv as (-> & _ & _).
  destruct (String.length v <=? 1); [|discriminate].
  unfold tailMajor.
  pose proof (span_spec digit r1) as Hm. destruct (span digit r1) as [ma r2].
  destruct Hm as (-> & _ & _).
  destruct (JS.truthy ma); [|discriminate].
  intros H. apply tailMinor_end in H. rewrite !length_append. lia.
Qed.

(** The version pattern matches a tag exactly when the tag is version-like,
    and then the groups are the parts of the tag. *)
Lemma version_match_iff (tag : string) :
  (exists e caps, matchAtStart versionSource tag = Some (e, caps)) <-> VersionLike tag.
Proof.
  rewrite versionSource_match. split.
  - intros (e & caps & H).
    apply fromStart_inv in H as (v & major & mp & suffix & Hw & -> & _).
    exists v, major, mp, suffix. split; [exact Hw|reflexivity].
  - intros (v & major & mp & suffix & Hw & ->).
    destruct (fromStart_assemble _ _ _ _ Hw) as [e H]. eauto.
Qed.

End VersionShape.

(* ------------------------------------------------------------------ *)
(** ** The Docker recognizer on a fresh instance *)

Module DockerFacts.

Import RegExp Lex DockerParser DockerGrammar ClosedForms RegExpFacts DockerPatterns
       VersionShape.

(** The attempt of the tag pattern at index 0, in closed form. *)
Lemma tagSource_match (tag : string) :
  matchAtStart tagSource tag =
    if generalTag tag then Some (String.length tag, [None]) else None.
Proof.
  unfold matchAtStart.
  change (initialCaptures tagSource) with [@None string].
  change (matcher tagSource 0 tag [None] accept)
    with (match tag with
          | String c rest =>
              if word c
              then repeatSet wordDotHyphen 0 (Some 127) 1 rest [None]
                     (fun pos' rest' caps' => matcher AssertEnd pos' rest' caps' accept)
              else None
          | EmptyString => None
          end).
  destruct tag as [|c rest]; [reflexivity|].
  unfold generalTag. destruct (word c); [|reflexivity].
  rewrite (repeatSet_ext wordDotHyphen _ atEnd)
    by (intros ? r ?; destruct r; reflexivity).
  rewrite repeatSet_greedy; [ | apply atEnd_rejects | simpl; lia ].
  pose proof (span_spec wordDotHyphen rest) as Hs.
  destruct (span wordDotHyphen rest) as [a b]. destruct Hs as (-> & Ha & Hb).
  rewrite allChars_append, Ha. cbn [andb Nat.leb withinMax String.length].
  destruct b as [|d b].
  - rewrite append_empty_r. simpl.
    destruct (String.length a <=? 127); reflexivity.
  - simpl in Hb. simpl allChars. rewrite Hb. simpl.
    destruct (String.length a <=? 127); reflexivity.
Qed.

(** The calls the recognizer makes on its two expressions: neither has the
    [g] or the [y] flag, so every call starts at index 0 and leaves the
    object as it was, whatever its [lastIndex]. *)
Lemma version_exec (n : nat) (tag : string) :
  RegExp.exec (RegExp.mk versionSource false false n) tag =
    (match fromStart tag with
     | Some (e, caps) => Some (setCapture 0 (Some (substring 0 e tag)) caps)
     | None => None
     end,
     RegExp.mk versionSource false false n).
Proof.
  rewrite versionSource_pieces, exec_anchored, <- versionSource_pieces.
  rewrite versionSource_match. reflexivity.
Qed.

Lemma version_test (n : nat) (tag : string) :
  RegExp.test (RegExp.mk versionSource false false n) tag =
    (isSome (fromStart tag), RegExp.mk versionSource false false n).
Proof.
  unfold RegExp.test. rewrite version_exec.
  destruct (fromStart tag) as [[e caps]|]; reflexivity.
Qed.

Lemma version_matchString (n : nat) (tag : string) :
  RegExp.matchString tag (RegExp.mk versionSource false false n) =
    (match fromStart tag with
     | Some (e, caps) => Some (setCapture 0 (Some (substring 0 e tag)) caps)
     | None => None
     end,
     RegExp.mk versionSource false false n).
Proof.
  unfold RegExp.matchString. cbn [global]. apply version_exec.
Qed.

Lemma tag_test (m : nat) (tag : string) :
  RegExp.test (RegExp.mk tagSource false false m) tag =
    (generalTag tag, RegExp.mk tagSource false false m).
Proof.
  unfold RegExp.test.
  unfold tagSource at 1. rewrite exec_anchored.
  change (Seq AssertStart (Seq (CharSet word) (Seq (Quant wordDotHyphen 0 (Some 127)) AssertEnd)))
    with tagSource.
  rewrite tagSource_match. destruct (generalTag tag); reflexivity.
Qed.

Lemma element_after_whole (v : option string) (caps : captures) (i : nat) :
  element (setCapture 0 v caps) (S i) = element caps (S i).
Proof. destruct caps; reflexivity. Qed.

(** [parse] returns the same result whatever the [lastIndex] of the two
    objects, and leaves the instance as it was. *)
Lemma parse_any (n m : nat) (tag : string) :
  DockerParser.parse (withLastIndex n m) tag = (parsed tag, withLastIndex n m).
Proof.
  unfold DockerParser.parse, parsed, special.
  change (specialTags (withLastIndex n m)) with (specialTags DockerParser.new).
  destruct (JS.includes (specialTags DockerParser.new) (JS.toLowerCase tag));
    [reflexivity|].
  change (dockerVersionPattern (withLastIndex n m))
    with (RegExp.mk versionSource false false n).
  rewrite version_matchString.
  destruct (fromStart tag) as [[e caps]|].
  - rewrite !element_after_whole. reflexivity.
  - change (dockerTagPattern
              (withVersionPattern (withLastIndex n m)
                 (RegExp.mk versionSource false false n)))
      with (RegExp.mk tagSource false false m).
    rewrite tag_test. destruct (generalTag tag); reflexivity.
Qed.

(** So does [canParse]. *)
Lemma canParse_any (n m : nat) (tag : string) :
  DockerParser.canParse (withLastIndex n m) tag =
    (special tag || isSome (fromStart tag) || generalTag tag, withLastIndex n m).
Proof.
  unfold DockerParser.canParse, special.
  change (specialTags (withLastIndex n m)) with (specialTags DockerParser.new).
  destruct (JS.includes (specialTags DockerParser.new) (JS.toLowerCase tag));
    [reflexivity|].
  change (dockerVersionPattern (withLastIndex n m))
    with (RegExp.mk versionSource false false n).
  rewrite version_test. destruct (fromStart tag) as [[e caps]|]; [reflexivity|].
  change (dockerTagPattern
            (withVersionPattern (withLastIndex n m)
               (RegExp.mk versionSource false false n)))
    with (RegExp.mk tagSource false false m).
  rewrite tag_test. reflexivity.
Qed.

Lemma parse_new (tag : string) :
  DockerParser.parse DockerParser.new tag = (parsed tag, DockerParser.new).
Proof. exact (parse_any 0 0 tag). Qed.

Lemma canParse_new (tag : string) :
  DockerParser.canParse DockerParser.new tag =
    (special tag || isSome (fromStart tag) || generalTag tag, DockerParser.new).
Proof. exact (canParse_any 0 0 tag). Qed.

Lemma dockerParse_parsed (tag : string) : dockerParse tag = parsed tag.
Proof. unfold dockerParse. now rewrite parse_new. Qed.

Lemma dockerCanParse_eq (tag : string) :
  dockerCanParse tag = special tag || isSome (fromStart tag) || generalTag tag.
Proof. unfold dockerCanParse. now rewrite canParse_new. Qed.

End DockerFacts.

(* ------------------------------------------------------------------ *)
(** ** Special tags, version-like tags and the general grammar *)

Module TagClasses.

Import RegExp Lex DockerParser DockerGrammar ClosedForms RegExpFacts DockerPatterns
       VersionShape DockerFacts.

Lemma includes_In (l : list string) (x : string) :
  JS.includes l x = true <-> In x l.
Proof.
  unfold JS.includes. rewrite existsb_exists. split.
  - intros (y & Hy & E). apply String.eqb_eq in E. now subst.
  - intros H. exists x. split; [exact H|apply String.eqb_refl].
Qed.

Lemma toLowerCase_length (s : string) :
  String.length (JS.toLowerCase s) = String.length s.
Proof. induction s as [|c s IH]; simpl; [reflexivity|now rewrite IH]. Qed.


Lemma lowerLetter_word c : lowerLetter (JS.toLowerCaseChar c) = true -> word c = true.
Proof. by_cases_on c. Qed.

Lemma lowerLetter_not_digit c :
  lowerLetter (JS.toLowerCaseChar c) = true -> digit c = false.
Proof. by_cases_on c. Qed.

Lemma lowerLetters_word (s : string) :
  allChars lowerLetter (JS.toLowerCase s) = true -> allChars word s = true.
Proof.
  induction s as [|c s IH]; simpl; [reflexivity|].
  intros H. apply andb_true_iff in H as [Hc Hs].
  now rewrite (lowerLetter_word _ Hc), (IH Hs).
Qed.

(** The lower-case form of a special tag is a run of at most ten lower-case
    letters that does not start with [v]. *)
Lemma special_lower (tag : string) :
  special tag = true ->
  allChars lowerLetter (JS.toLowerCase tag) = true
  /\ String.length (JS.toLowerCase tag) <= 10
  /\ exists c rest, JS.toLowerCase tag = String c rest /\ letterV c = false.
Proof.
  unfold special. rewrite includes_In. simpl.
  intros [H|[H|[H|[H|[H|[H|[H|[]]]]]]]]; rewrite <- H;
    (split; [reflexivity|split; [simpl; lia|eexists; eexists; split; reflexivity]]).
Qed.

Lemma lower_not_letterV c : letterV (JS.toLowerCaseChar c) = false -> letterV c = false.
Proof. by_cases_on c. Qed.


Lemma lexical_allChars (tag : string) :
  lexical tag = true -> allChars wordDotHyphen tag = true.
Proof.
  destruct tag as [|c rest]; simpl; [discriminate|].
  intros H. apply andb_true_iff in H as [Hc Hr].
  now rewrite (word_wordDotHyphen _ Hc), Hr.
Qed.

Lemma generalTag_lexical (tag : string) :
  generalTag tag = lexical tag && (String.length tag <=? 128).
Proof. destruct tag; reflexivity. Qed.

Lemma special_general (tag : string) : special tag = true -> generalTag tag = true.
Proof.
  intros H. destruct (special_lower tag H) as (Hl & Hn & _).
  rewrite toLowerCase_length in Hn. apply lowerLetters_word in Hl.
  rewrite generalTag_lexical. apply andb_true_iff. split.
  - destruct tag as [|c rest].
    + apply special_lower in H as (_ & _ & (c & rest & E & _)). discriminate E.
    + simpl in *. apply andb_true_iff in Hl as [Hc Hr]. rewrite Hc. simpl.
      apply (allChars_impl word); [apply word_wordDotHyphen|exact Hr].
  - apply Nat.leb_le. lia.
Qed.

(** A special tag starts with a letter other than [v]: it is not
    version-like. *)
Lemma special_first (tag : string) :
  special tag = true ->
  exists c rest, tag = String c rest /\ digit c = false /\ letterV c = false.
Proof.
  intros H. destruct (special_lower tag H) as (Hl & _ & (c & rest & E & Hv)).
  destruct tag as [|d tag']; [discriminate E|]. simpl in E, Hl.
  injection E as Ec Er. subst c. apply andb_true_iff in Hl as [Hd _].
  exists d, tag'. repeat split.
  - now apply lowerLetter_not_digit.
  - now apply lower_not_letterV.
Qed.

Lemma numeric_wordDotHyphen s : numeric s = true -> allChars wordDotHyphen s = true.
Proof.
  intros H. apply numeric_inv in H as [_ H].
  apply (allChars_impl digit); [apply digit_wordDotHyphen|exact H].
Qed.

Lemma dottedText_chars mp :
  dottedOk mp = true -> allChars wordDotHyphen (dottedText mp) = true.
Proof.
  destruct mp as [[m [p|]]|]; simpl; intros H; [| |reflexivity].
  - apply andb_true_iff in H as [Hm Hp].
    rewrite allChars_append, (numeric_wordDotHyphen _ Hm). simpl.
    now apply numeric_wordDotHyphen.
  - now apply numeric_wordDotHyphen.
Qed.

Lemma suffixText_chars suffix :
  suffixOk suffix = true -> allChars wordDotHyphen (suffixText suffix) = true.
Proof.
  destruct suffix as [s|]; simpl; intros H; [|reflexivity].
  now apply andb_true_iff in H as [_ H].
Qed.

(** A version-like tag starts with [v], [V] or a digit, and obeys the
    character rules of the general grammar. *)
Lemma versionLike_first (tag : string) :
  VersionLike tag ->
  exists c rest, tag = String c rest /\ (digit c = true \/ letterV c = true).
Proof.
  intros (v & major & mp & suffix & Hw & ->).
  unfold wellFormed in Hw.
  apply andb_true_iff in Hw as [Hw _]. apply andb_true_iff in Hw as [Hw _].
  apply andb_true_iff in Hw as [Hv Hm]. apply numeric_inv in Hm as [Ht Ha].
  unfold assemble.
  destruct (prefixOk_inv _ Hv) as [->|[->| ->]].
  - destruct major as [|d major]; [discriminate Ht|]. simpl in *.
    apply andb_true_iff in Ha as [Hd _]. eexists; eexists; split; [reflexivity|now left].
  - eexists; eexists; split; [reflexivity|now right].
  - eexists; eexists; split; [reflexivity|now right].
Qed.

Lemma versionLike_lexical (tag : string) : VersionLike tag -> lexical tag = true.
Proof.
  intros H. destruct (versionLike_first H) as (c & rest & E & Hc).
  destruct H as (v & major & mp & suffix & Hw & E').
  assert (Hall : allChars wordDotHyphen tag = true).
  { rewrite E'. unfold wellFormed in Hw.
    apply andb_true_iff in Hw as [Hw Hs]. apply andb_true_iff in Hw as [Hw Hd].
    apply andb_true_iff in Hw as [Hv Hm].
    unfold assemble. rewrite !allChars_append.
    rewrite (numeric_wordDotHyphen _ Hm), (dottedText_chars _ Hd),
      (suffixText_chars _ Hs).
    destruct (prefixOk_inv _ Hv) as [->|[->| ->]]; reflexivity. }
  rewrite E in *. simpl in *. apply andb_true_iff in Hall as [_ Hr].
  rewrite Hr, andb_true_r.
  destruct Hc as [Hc|Hc]; [now apply digit_word|now apply letterV_word].
Qed.

Lemma versionLike_not_special (tag : string) : VersionLike tag -> special tag = false.
Proof.
  intros H. destruct (special tag) eqn:Hs; [|reflexivity].
  destruct (versionLike_first H) as (c & rest & -> & Hc).
  destruct (special_first _ Hs) as (c' & rest' & E & Hd & Hv).
  injection E as <- <-. destruct Hc; congruence.
Qed.

Lemma fromStart_versionLike (tag : string) :
  isSome (fromStart tag) = true <-> VersionLike tag.
Proof.
  rewrite <- version_match_iff, versionSource_match. split.
  - destruct (fromStart tag) as [[e caps]|]; [eauto|discriminate].
  - intros (e & caps & ->). reflexivity.
Qed.

Lemma not_versionLike (tag : string) : ~ VersionLike tag -> fromStart tag = None.
Proof.
  intros H. destruct (fromStart tag) as [z|] eqn:E; [|reflexivity].
  exfalso. apply H, fromStart_versionLike. now rewrite E.
Qed.

Lemma fromStart_none (tag : string) : fromStart tag = None -> ~ VersionLike tag.
Proof.
  intros E H. apply fromStart_versionLike in H. rewrite E in H. discriminate H.
Qed.

End TagClasses.

(* ------------------------------------------------------------------ *)
(** ** [indexOf] and [slice] around the first hyphen *)

Module HyphenFacts.

Import Lex DockerParser DockerGrammar ClosedForms.


Lemma indexOfFrom_absent (s : string) (i : Z) :
  noHyphen s = true -> JS.indexOfFrom "-" s i = (-1)%Z.
Proof.
  revert i. induction s as [|c s IH]; intros i; simpl; [reflexivity|].
  intros H. apply andb_true_iff in H as [Hc Hs].
  unfold hyphen in Hc. apply negb_true_iff in Hc. rewrite Hc. now apply IH.
Qed.

Lemma indexOfFrom_found (a b : string) (i : Z) :
  noHyphen a = true ->
  JS.indexOfFrom "-" (a ++ String "-" b) i = (i + Z.of_nat (String.length a))%Z.
Proof.
  revert i. induction a as [|c a IH]; intros i; simpl.
  - intros _. lia.
  - intros H. apply andb_true_iff in H as [Hc Ha].
    unfold hyphen in Hc. apply negb_true_iff in Hc. rewrite Hc.
    rewrite IH by exact Ha. lia.
Qed.

Lemma substring_suffix (a b : string) :
  substring (String.length a) (String.length b) (a ++ b) = b.
Proof.
  induction a as [|c a IH]; simpl; [apply substring_all|exact IH].
Qed.

Lemma slice_prefix (a b : string) :
  JS.slice (a ++ b) 0 (Z.of_nat (String.length a)) = a.
Proof.
  unfold JS.slice, JS.relIndex. rewrite length_append.
  replace (0 <? 0)%Z with false by reflexivity.
  replace (Z.of_nat (String.length a) <? 0)%Z with false
    by (symmetry; apply Z.ltb_ge; lia).
  rewrite Z.min_l by lia. rewrite Z.min_l by lia.
  rewrite Z.sub_0_r, Z.max_l by lia. rewrite Nat2Z.id.
  change (Z.to_nat 0) with 0. apply substring_prefix.
Qed.

Lemma sliceFrom_suffix (a b : string) :
  JS.sliceFrom (a ++ b) (Z.of_nat (String.length a)) = b.
Proof.
  unfold JS.sliceFrom, JS.slice, JS.relIndex. rewrite length_append.
  replace (Z.of_nat (String.length a) <? 0)%Z with false
    by (symmetry; apply Z.ltb_ge; lia).
  replace (Z.of_nat (String.length a + String.length b) <? 0)%Z with false
    by (symmetry; apply Z.ltb_ge; lia).
  rewrite Z.min_l by lia. rewrite Z.min_l by lia.
  rewrite Z.max_l by lia. rewrite Nat2Z.id.
  replace (Z.to_nat (Z.of_nat (String.length a + String.length b)
                     - Z.of_nat (String.length a)))
    with (String.length b) by lia.
  apply substring_suffix.
Qed.

(** The root and the remainder of a tag without a hyphen, and of a tag cut at
    its first hyphen. *)
Lemma indexOf_absent (tag : string) :
  noHyphen tag = true -> JS.indexOf tag "-" = (-1)%Z.
Proof. apply indexOfFrom_absent. Qed.

Lemma indexOf_found (a b : string) :
  noHyphen a = true ->
  JS.indexOf (a ++ String "-" b) "-" = Z.of_nat (String.length a).
Proof. intros H. unfold JS.indexOf. now rewrite indexOfFrom_found. Qed.

End HyphenFacts.

(* ------------------------------------------------------------------ *)
(** ** The Docker recognizer: its properties *)

Section DockerProperties.

Import RegExp Lex DockerParser DockerGrammar ClosedForms RegExpFacts DockerPatterns
       VersionShape DockerFacts TagClasses HyphenFacts.

(** C10: for every tag, [DockerParser.parse(tag).isValid] is true exactly when
    [DockerParser.canParse(tag)] is true: [parse] never fails on a tag that
    [canParse] accepts and never succeeds on a tag that it rejects. *)
Theorem docker_parse_valid_iff_canParse (tag : string) :
  isValid (dockerParse tag) = true <-> dockerCanParse tag = true.
Proof.
  rewrite dockerParse_parsed, dockerCanParse_eq. unfold parsed.
  destruct (special tag); [simpl; tauto|].
  destruct (fromStart tag) as [[e caps]|]; [simpl; tauto|].
  destruct (generalTag tag); simpl; tauto.
Qed.

(** C7: for every tag whose lower-case form is one of latest, stable, dev,
    test, prod, production, staging, [DockerParser.parse] succeeds with the
    five fields empty and [version] the tag itself, in its own casing. *)
Theorem docker_special_tag (tag : string) :
  In (JS.toLowerCase tag)
     ["latest"; "stable"; "dev"; "test"; "prod"; "production"; "staging"] ->
  dockerParse tag = mkResult true tag (mkInfo "" "" "" "" "") (Some DOCKER).
Proof.
  intros H. rewrite dockerParse_parsed. unfold parsed, special.
  apply (includes_In (specialTags DockerParser.new)) in H. rewrite H.
  unfold createSuccessResult. simpl. unfold reconstructVersion. rewrite H.
  reflexivity.
Qed.

Lemma docker_special_tag_witness :
  dockerParse "LaTest" = mkResult true "LaTest" (mkInfo "" "" "" "" "") (Some DOCKER).
Proof.
  apply docker_special_tag. simpl. tauto.
Defined.

Lemma parsed_version_like v maj mp suffix :
  wellFormed v maj mp suffix = true ->
  parsed (assemble v maj mp suffix) =
    mkResult true
      (maj ++ "." ++ optional (minorOf mp) ++ "."
         ++ JS.orElse (optional (patchOf mp)) "0" ++ suffixText suffix)
      (mkInfo maj (optional (minorOf mp)) (optional (patchOf mp))
         (optional suffix) "")
      (Some DOCKER).
Proof.
  intros Hw. unfold parsed.
  assert (Hv : VersionLike (assemble v maj mp suffix))
    by (exists v, maj, mp, suffix; split; [exact Hw|reflexivity]).
  rewrite (versionLike_not_special Hv).
  destruct (fromStart_assemble _ _ _ _ Hw) as [e ->].
  unfold createSuccessResult. simpl. unfold reconstructVersion.
  fold (special (assemble v maj mp suffix)).
  rewrite (versionLike_not_special Hv). cbn [major minor patch prerelease].
  unfold wellFormed in Hw.
  apply andb_true_iff in Hw as [Hw Hs]. apply andb_true_iff in Hw as [Hw _].
  apply andb_true_iff in Hw as [_ Hm]. apply numeric_inv in Hm as [Ht _].
  change (element [None; Some maj; minorOf mp; patchOf mp; suffix] 1) with maj.
  change (element [None; Some maj; minorOf mp; patchOf mp; suffix] 2)
    with (optional (minorOf mp)).
  change (element [None; Some maj; minorOf mp; patchOf mp; suffix] 3)
    with (optional (patchOf mp)).
  change (element [None; Some maj; minorOf mp; patchOf mp; suffix] 4)
    with (optional suffix).
  rewrite Ht. cbn [negb].
  destruct suffix as [s|]; simpl in Hs |- *.
  - apply andb_true_iff in Hs as [Hs _]. rewrite Hs.
    f_equal. simpl. rewrite !append_assoc. simpl. rewrite ?append_assoc.
    reflexivity.
  - rewrite !append_empty_r. reflexivity.
Qed.

(** C6: under the Docker scheme every tag of the shape
    [v?MAJOR[.MINOR[.PATCH]][-SUFFIX]] parses, with the parts as its fields
    and without the prefix [v] in [version].  With MINOR and PATCH, [version]
    is [MAJOR.MINOR.PATCH]; with MINOR and no PATCH it is [MAJOR.MINOR.0];
    with neither it is [MAJOR..0], the place of the minor number left empty
    between the two dots, and not the three components the claim states.
    [-SUFFIX] follows when the tag has a suffix. *)
Theorem docker_version_like_reconstruction
    (v maj : string) (mp : option (string * option string)) (suffix : option string) :
  wellFormed v maj mp suffix = true ->
  dockerParse (assemble v maj mp suffix) =
    mkResult true
      (match mp with
       | Some (m, Some p) => maj ++ "." ++ m ++ "." ++ p
       | Some (m, None) => maj ++ "." ++ m ++ ".0"
       | None => maj ++ "..0"
       end ++ suffixText suffix)
      (mkInfo maj (optional (minorOf mp)) (optional (patchOf mp))
         (optional suffix) "")
      (Some DOCKER).
Proof.
  intros Hw. rewrite dockerParse_parsed, (parsed_version_like _ _ _ _ Hw).
  f_equal. unfold wellFormed in Hw.
  apply andb_true_iff in Hw as [Hw _]. apply andb_true_iff in Hw as [_ Hd].
  destruct mp as [[m [p|]]|]; cbn [minorOf patchOf optional].
  - cbn [dottedOk] in Hd. apply andb_true_iff in Hd as [_ Hp].
    apply numeric_inv in Hp as [Hp _].
    destruct p as [|c p]; [discriminate Hp|].
    cbn [JS.orElse JS.truthy]. now rewrite !append_assoc.
  - cbn [JS.orElse JS.truthy]. now rewrite !append_assoc.
  - cbn [JS.orElse JS.truthy]. now rewrite !append_assoc.
Qed.

Lemma docker_version_like_reconstruction_witness :
  dockerParse "v1"
    = mkResult true "1..0" (mkInfo "1" "" "" "" "") (Some DOCKER)
  /\ dockerParse "v1.2-alpine"
    = mkResult true "1.2.0-alpine" (mkInfo "1" "2" "" "alpine" "") (Some DOCKER)
  /\ dockerParse "V1.2.3"
    = mkResult true "1.2.3" (mkInfo "1" "2" "3" "" "") (Some DOCKER).
Proof.
  split; [|split].
  - exact (@docker_version_like_reconstruction "v" "1" None None eq_refl).
  - exact (@docker_version_like_reconstruction
             "v" "1" (Some ("2", None)) (Some "alpine") eq_refl).
  - exact (@docker_version_like_reconstruction
             "V" "1" (Some ("2", Some "3")) None eq_refl).
Defined.

End DockerProperties.

Section DockerGrammarProperties.

Import RegExp Lex DockerParser DockerGrammar ClosedForms RegExpFacts DockerPatterns
       VersionShape DockerFacts TagClasses HyphenFacts.

(** C8: for every tag of Docker's general grammar that is neither special nor
    version-like, [DockerParser.parse] succeeds with [major], [minor], [patch]
    and [build] empty; [version] is the text before the first hyphen and
    [prerelease] the text after it, and a tag without a hyphen is its own
    [version] with an empty [prerelease]. *)
Theorem docker_opaque_tag (tag : string) :
  generalTag tag = true ->
  special tag = false ->
  ~ VersionLike tag ->
  let r := dockerParse tag in
  isValid r = true /\ format r = Some DOCKER
  /\ major (info r) = "" /\ minor (info r) = "" /\ patch (info r) = ""
  /\ build (info r) = ""
  /\ (noHyphen tag = true -> version r = tag /\ prerelease (info r) = "")
  /\ (forall a b, tag = a ++ "-" ++ b -> noHyphen a = true ->
        version r = a /\ prerelease (info r) = b).
Proof.
  intros Hg Hs Hv r. subst r.
  rewrite dockerParse_parsed. unfold parsed.
  rewrite Hs, (not_versionLike Hv), Hg.
  unfold createSuccessResult. simpl. unfold reconstructVersion.
  fold (special tag). rewrite Hs. simpl. unfold remainder.
  repeat (split; [reflexivity|]). split.
  - intros Hn. rewrite indexOf_absent by exact Hn. split; reflexivity.
  - intros a b -> Ha. rewrite indexOf_found by exact Ha.
    replace (Z.of_nat (String.length a) =? -1)%Z with false
      by (symmetry; apply Z.eqb_neq; lia).
    split.
    + apply slice_prefix.
    + replace (a ++ String "-" b) with ((a ++ "-") ++ b)
        by (rewrite append_assoc; reflexivity).
      replace (Z.of_nat (String.length a) + 1)%Z
        with (Z.of_nat (String.length (a ++ "-")))
        by (rewrite length_append; simpl; lia).
      apply sliceFrom_suffix.
Qed.

Lemma docker_opaque_tag_witness :
  generalTag "my-custom-tag-v2" = true
  /\ special "my-custom-tag-v2" = false
  /\ version (dockerParse "my-custom-tag-v2") = "my"
  /\ prerelease (info (dockerParse "my-custom-tag-v2")) = "custom-tag-v2".
Proof.
  pose proof (docker_opaque_tag (tag := "my-custom-tag-v2") eq_refl eq_refl
                (@fromStart_none "my-custom-tag-v2" eq_refl)) as H.
  destruct H as (_ & _ & _ & _ & _ & _ & _ & H).
  split; [reflexivity|]. split; [reflexivity|].
  exact (H "my" "custom-tag-v2" eq_refl eq_refl).
Defined.


(** C4, as stated, fails: a run of 129 digits is longer than 128 characters,
    and [DockerParser.parse] accepts it as a version-like tag. *)
Lemma docker_overlong_version_tag :
  String.length (repeatChar "1" 129) = 129
  /\ isValid (dockerParse (repeatChar "1" 129)) = true.
Proof. split; vm_compute; reflexivity. Qed.

Lemma not_lexical_fails (tag : string) :
  lexical tag = false ->
  special tag = false /\ fromStart tag = None /\ generalTag tag = false.
Proof.
  intros Hl. repeat split.
  - destruct (special tag) eqn:Hs; [|reflexivity].
    apply special_general in Hs. rewrite generalTag_lexical, Hl in Hs.
    discriminate Hs.
  - apply not_versionLike. intros Hv. apply versionLike_lexical in Hv. congruence.
  - rewrite generalTag_lexical, Hl. reflexivity.
Qed.

(** C4, amended: [DockerParser.parse] fails, and [version] is the tag
    unchanged, for every tag that has a character outside [[A-Za-z0-9_.-]],
    or a first character outside [[A-Za-z0-9_]], or that is longer than 128
    characters and not version-like. *)
Theorem docker_grammar_violation (tag : string) :
  (128 < String.length tag /\ ~ VersionLike tag)
  \/ allChars wordDotHyphen tag = false
  \/ (exists c rest, tag = String c rest /\ word c = false) ->
  isValid (dockerParse tag) = false /\ version (dockerParse tag) = tag.
Proof.
  intros H.
  assert (Hf : special tag = false /\ fromStart tag = None /\ generalTag tag = false).
  { destruct H as [[Hlen Hv]|[Hc|(c & rest & -> & Hc)]].
    - assert (Hg : generalTag tag = false).
      { rewrite generalTag_lexical.
        replace (String.length tag <=? 128) with false
          by (symmetry; apply Nat.leb_gt; lia).
        apply andb_false_r. }
      repeat split; [|now apply not_versionLike|exact Hg].
      destruct (special tag) eqn:Hs; [|reflexivity].
      apply special_general in Hs. congruence.
    - apply not_lexical_fails.
      destruct (lexical tag) eqn:Hl; [|reflexivity].
      apply lexical_allChars in Hl. congruence.
    - apply not_lexical_fails. simpl. now rewrite Hc. }
  destruct Hf as (Hs & Hv & Hg).
  rewrite dockerParse_parsed. unfold parsed. rewrite Hs, Hv, Hg.
  split; reflexivity.
Qed.

Lemma docker_grammar_violation_witness :
  128 < String.length (repeatChar "a" 129)
  /\ isValid (dockerParse (repeatChar "a" 129)) = false
  /\ version (dockerParse (repeatChar "a" 129)) = repeatChar "a" 129.
Proof.
  split; [vm_compute; lia|].
  apply docker_grammar_violation. left. split.
  - vm_compute. lia.
  - apply fromStart_none. vm_compute. reflexivity.
Defined.

End DockerGrammarProperties.

(* ------------------------------------------------------------------ *)
(** ** The registry: its properties *)


Section RegistryProperties.

Import DockerParser DockerGrammar ClosedForms DockerFacts TagClasses.

(** A call leaves the registry as it was and returns what it returns on a
    fresh registry, whatever the [lastIndex] of the expression objects of the
    Docker recognizer. *)
Lemma registry_parse_any (p : YearPolicy) (n m : nat) (tag : string)
    (requested : VersionType) :
  ParserRegistry.parse
    (ParserRegistry.withDocker (ParserRegistry.new p) (withLastIndex n m))
    tag requested
  = (registryParse p tag requested,
     ParserRegistry.withDocker (ParserRegistry.new p) (withLastIndex n m)).
Proof.
  unfold registryParse.
  destruct requested; simpl; try reflexivity.
  - rewrite parse_any, parse_new. reflexivity.
  - unfold ParserRegistry.autoDetect. simpl.
    destruct (SemverParser.canParse _ tag); [reflexivity|].
    destruct (CalverParser.canParse _ tag); [reflexivity|].
    destruct (DateBasedParser.canParse _ tag); [reflexivity|].
    rewrite canParse_any, canParse_new.
    destruct (special tag || isSome (fromStart tag) || generalTag tag);
      [rewrite parse_any, parse_new|]; reflexivity.
Qed.

(** C9: [parse] is deterministic: a call returns what it returns on a fresh
    registry, whatever the [lastIndex] of the regular-expression objects of
    the Docker recognizer, and leaves the registry as it was; a second call
    with the same tag and scheme returns the result of the first. *)
Theorem registry_parse_deterministic
    (p : YearPolicy) (n m : nat) (tag : string) (requested : VersionType) :
  let R := ParserRegistry.withDocker (ParserRegistry.new p) (withLastIndex n m) in
  let first := ParserRegistry.parse R tag requested in
  let second := ParserRegistry.parse (snd first) tag requested in
  fst first = registryParse p tag requested
  /\ snd first = R
  /\ fst second = fst first
  /\ snd second = R.
Proof.
  intros R first second. subst first second R.
  rewrite !registry_parse_any. simpl. rewrite registry_parse_any.
  repeat split.
Qed.

Lemma semver_failure (this : SemverParser.t) (tag : string) :
  isValid (SemverParser.parse this tag) = false ->
  SemverParser.parse this tag = createFailedResult tag.
Proof.
  unfold SemverParser.parse.
  destruct (SemverParser.coarse tag) as [i|]; [|reflexivity].
  destruct (SemverParser.calverAmbiguous _ i); [reflexivity|discriminate].
Qed.

Lemma calver_failure (this : CalverParser.t) (tag : string) :
  isValid (CalverParser.parse this tag) = false ->
  CalverParser.parse this tag = createFailedResult tag.
Proof.
  unfold CalverParser.parse.
  destruct (CalverParser.shape this tag); [discriminate|reflexivity].
Qed.

Lemma dateBased_failure (this : DateBasedParser.t) (tag : string) :
  isValid (DateBasedParser.parse this tag) = false ->
  DateBasedParser.parse this tag = createFailedResult tag.
Proof.
  unfold DateBasedParser.parse.
  destruct (DateBasedParser.shape tag); [discriminate|reflexivity].
Qed.

(** The Docker recognizer, in any state of its two expression objects. *)
Lemma docker_failure (this : DockerParser.t) (tag : string) :
  isValid (fst (DockerParser.parse this tag)) = false ->
  fst (DockerParser.parse this tag) = createFailedResult tag.
Proof.
  unfold DockerParser.parse.
  destruct (JS.includes (specialTags this) (JS.toLowerCase tag)); [discriminate|].
  destruct (RegExp.matchString tag (dockerVersionPattern this)) as [[arr|] vp];
    [discriminate|].
  destruct (RegExp.test _ tag) as [[|] tp]; [discriminate|reflexivity].
Qed.

(** C2: for every tag and every scheme selector, in every state of the
    registry: when [parse] returns [isValid = false], [version] is the tag
    itself and the five fields of the result are empty. *)
Theorem registry_failure_echoes_tag
    (R : ParserRegistry.t) (tag : string) (requested : VersionType) :
  isValid (fst (ParserRegistry.parse R tag requested)) = false ->
  version (fst (ParserRegistry.parse R tag requested)) = tag
  /\ info (fst (ParserRegistry.parse R tag requested)) = mkInfo "" "" "" "" "".
Proof.
  intros H.
  assert (E : fst (ParserRegistry.parse R tag requested) = createFailedResult tag).
  { revert H. destruct requested; simpl.
    - apply semver_failure.
    - apply calver_failure.
    - apply dateBased_failure.
    - pose proof (docker_failure (ParserRegistry.docker R) tag) as Hd.
      destruct (DockerParser.parse (ParserRegistry.docker R) tag). exact Hd.
    - unfold ParserRegistry.autoDetect.
      destruct (SemverParser.canParse _ tag); [apply semver_failure|].
      destruct (CalverParser.canParse _ tag); [apply calver_failure|].
      destruct (DateBasedParser.canParse _ tag); [apply dateBased_failure|].
      destruct (DockerParser.canParse _ tag) as [[|] d]; [|reflexivity].
      pose proof (docker_failure d tag) as Hd.
      destruct (DockerParser.parse d tag). exact Hd. }
  rewrite E. split; reflexivity.
Qed.

Lemma registry_failure_echoes_tag_witness :
  isValid (registryParse samplePolicy "a$b" AUTO) = false
  /\ version (registryParse samplePolicy "a$b" AUTO) = "a$b"
  /\ info (registryParse samplePolicy "a$b" AUTO) = mkInfo "" "" "" "" "".
Proof.
  split; [vm_compute; reflexivity|].
  apply (registry_failure_echoes_tag (ParserRegistry.new samplePolicy) "a$b" AUTO).
  vm_compute. reflexivity.
Defined.

(** C1, as stated, fails: the Docker recognizer accepts [v1], and [parse]
    with [AUTO] returns a valid result for it. *)
Lemma registry_auto_v1_is_valid :
  dockerCanParse "v1" = true
  /\ isValid (dockerParse "v1") = true
  /\ isValid (registryParse samplePolicy "v1" AUTO) = true.
Proof. repeat split; vm_compute; reflexivity. Qed.

(** C1, amended: [parse("v1", AUTO)] succeeds with [format] DOCKER, [major]
    1 and the other fields empty: the Semver, Calver and DateBased
    recognizers reject the bare single-component tag, and the Docker
    recognizer, probed last, accepts it as a version-like tag. *)
Theorem registry_auto_v1 (p : YearPolicy) :
  SemverParser.canParse (SemverParser.mk p) "v1" = false
  /\ CalverParser.canParse (CalverParser.mk p) "v1" = false
  /\ DateBasedParser.canParse DateBasedParser.mk "v1" = false
  /\ dockerCanParse "v1" = true
  /\ isValid (registryParse p "v1" AUTO) = true
  /\ format (registryParse p "v1" AUTO) = Some DOCKER
  /\ info (registryParse p "v1" AUTO) = mkInfo "1" "" "" "" "".
Proof. repeat split; vm_compute; reflexivity. Qed.

(** C3, as stated, fails: the Docker recognizer accepts [v1.2.3-], and
    [parse] with [AUTO] returns a valid result for it. *)
Lemma registry_auto_trailing_dash_is_valid :
  dockerCanParse "v1.2.3-" = true
  /\ isValid (dockerParse "v1.2.3-") = true
  /\ isValid (registryParse samplePolicy "v1.2.3-" AUTO) = true.
Proof. repeat split; vm_compute; reflexivity. Qed.

(** C3, amended: [parse("v1.2.3-", AUTO)] succeeds with [format] DOCKER,
    [version] [v1.2.3] and every field empty: the Semver, Calver and
    DateBased recognizers and the version pattern of the Docker recognizer
    reject the trailing dash, and Docker's general tag grammar accepts the
    tag as an opaque one. *)
Theorem registry_auto_trailing_dash (p : YearPolicy) :
  SemverParser.canParse (SemverParser.mk p) "v1.2.3-" = false
  /\ CalverParser.canParse (CalverParser.mk p) "v1.2.3-" = false
  /\ DateBasedParser.canParse DateBasedParser.mk "v1.2.3-" = false
  /\ fst (RegExp.test (dockerVersionPattern DockerParser.new) "v1.2.3-") = false
  /\ fst (RegExp.test (dockerTagPattern DockerParser.new) "v1.2.3-") = true
  /\ registryParse p "v1.2.3-" AUTO
     = mkResult true "v1.2.3" (mkInfo "" "" "" "" "") (Some DOCKER).
Proof. repeat split; vm_compute; reflexivity. Qed.

End RegistryProperties.

(* ------------------------------------------------------------------ *)
(** ** The Docker recognizer: further properties *)

Section DockerFurtherProperties.

Import RegExp Lex DockerParser DockerGrammar ClosedForms RegExpFacts DockerPatterns
       VersionShape DockerFacts TagClasses.

(** X1: [tag.match(dockerVersionPattern)] is not null exactly for the tags of
    the shape [v?MAJOR[.MINOR[.PATCH]][-SUFFIX]]. *)
Theorem version_pattern_matches_version_like (tag : string) :
  (exists arr,
      fst (RegExp.matchString tag (dockerVersionPattern DockerParser.new)) = Some arr)
  <-> VersionLike tag.
Proof.
  change (dockerVersionPattern DockerParser.new)
    with (RegExp.mk versionSource false false 0).
  rewrite version_matchString, <- fromStart_versionLike. cbn [fst].
  destruct (fromStart tag) as [[e caps]|]; split.
  - reflexivity.
  - intros _. eexists. reflexivity.
  - intros [arr H]. discriminate H.
  - discriminate.
Qed.

(** X2: on a tag of that shape the array of the match is the tag itself
    followed by MAJOR, MINOR, PATCH and SUFFIX, an absent part being
    undefined. *)
Theorem version_pattern_groups
    (v maj : string) (mp : option (string * option string)) (suffix : option string) :
  wellFormed v maj mp suffix = true ->
  fst (RegExp.matchString (assemble v maj mp suffix)
         (dockerVersionPattern DockerParser.new))
  = Some [Some (assemble v maj mp suffix); Some maj; minorOf mp; patchOf mp; suffix].
Proof.
  intros Hw.
  change (dockerVersionPattern DockerParser.new)
    with (RegExp.mk versionSource false false 0).
  rewrite version_matchString. cbn [fst].
  destruct (fromStart_assemble _ _ _ _ Hw) as [e H].
  rewrite H. apply fromStart_end in H. subst e.
  rewrite substring_all. reflexivity.
Qed.

Lemma version_pattern_groups_witness :
  fst (RegExp.matchString "v1.2-alpine" (dockerVersionPattern DockerParser.new))
  = Some [Some "v1.2-alpine"; Some "1"; Some "2"; None; Some "alpine"].
Proof.
  exact (version_pattern_groups "v" "1" (Some ("2", None)) (Some "alpine") eq_refl).
Defined.

(** X3: [dockerTagPattern.test(tag)] is true exactly for the tags of Docker's
    general grammar: 1 to 128 characters, the first one a letter, a digit or
    an underscore, the others letters, digits, underscores, dots or hyphens. *)
Theorem tag_pattern_is_general_grammar (tag : string) :
  fst (RegExp.test (dockerTagPattern DockerParser.new) tag) = generalTag tag.
Proof.
  change (dockerTagPattern DockerParser.new) with (RegExp.mk tagSource false false 0).
  rewrite tag_test. reflexivity.
Qed.

(** X4: [parse] and [canParse] do not change the instance, and their results
    do not depend on the [lastIndex] of its two expression objects. *)
Theorem docker_calls_leave_instance_unchanged (n m : nat) (tag : string) :
  DockerParser.parse (withLastIndex n m) tag = (dockerParse tag, withLastIndex n m)
  /\ DockerParser.canParse (withLastIndex n m) tag
     = (dockerCanParse tag, withLastIndex n m).
Proof.
  rewrite parse_any, canParse_any, dockerParse_parsed, dockerCanParse_eq.
  split; reflexivity.
Qed.

(** X5: [canParse] accepts exactly the special tags, the version-like tags
    and the tags of the general grammar. *)
Theorem docker_canParse_accepts (tag : string) :
  dockerCanParse tag = true
  <-> special tag = true \/ VersionLike tag \/ generalTag tag = true.
Proof.
  rewrite dockerCanParse_eq, <- fromStart_versionLike, !orb_true_iff. tauto.
Qed.

(** X7: when [DockerParser.parse] fails, the result is the failure result of
    the tag: [version] is the tag, the fields are empty and there is no
    scheme. *)
Theorem docker_failure_echoes_tag (tag : string) :
  isValid (dockerParse tag) = false ->
  dockerParse tag = mkResult false tag (mkInfo "" "" "" "" "") None.
Proof.
  rewrite dockerParse_parsed. unfold parsed.
  destruct (special tag); [discriminate|].
  destruct (fromStart tag) as [[e caps]|]; [discriminate|].
  destruct (generalTag tag); [discriminate|reflexivity].
Qed.

Lemma docker_failure_echoes_tag_witness :
  isValid (dockerParse "a$b") = false
  /\ dockerParse "a$b" = mkResult false "a$b" (mkInfo "" "" "" "" "") None.
Proof.
  split; [reflexivity|]. apply docker_failure_echoes_tag. reflexivity.
Defined.

End DockerFurtherProperties.

(* ------------------------------------------------------------------ *)
(** ** The shape of every result of the Docker recognizer *)

Module DockerShape.

Import RegExp Lex DockerParser DockerGrammar ClosedForms RegExpFacts DockerPatterns
       VersionShape DockerFacts TagClasses.

Lemma parsed_valid tag :
  isValid (parsed tag) = special tag || isSome (fromStart tag) || generalTag tag.
Proof.
  unfold parsed. destruct (special tag); [reflexivity|].
  destruct (fromStart tag) as [[e caps]|]; [reflexivity|].
  destruct (generalTag tag); reflexivity.
Qed.

Lemma parsed_format tag :
  format (parsed tag) = if isValid (parsed tag) then Some DOCKER else None.
Proof.
  unfold parsed. destruct (special tag); [reflexivity|].
  destruct (fromStart tag) as [[e caps]|]; [reflexivity|].
  destruct (generalTag tag); reflexivity.
Qed.

Lemma parsed_build tag : build (info (parsed tag)) = "".
Proof.
  unfold parsed. destruct (special tag); [reflexivity|].
  destruct (fromStart tag) as [[e caps]|]; [reflexivity|].
  destruct (generalTag tag); reflexivity.
Qed.

Lemma parsed_failure tag :
  isValid (parsed tag) = false -> parsed tag = createFailedResult tag.
Proof.
  unfold parsed. destruct (special tag); [discriminate|].
  destruct (fromStart tag) as [[e caps]|]; [discriminate|].
  destruct (generalTag tag); [discriminate|reflexivity].
Qed.

(** Without a match of the version pattern the three numbers are empty. *)
Lemma parsed_unnumbered tag :
  fromStart tag = None ->
  major (info (parsed tag)) = "" /\ minor (info (parsed tag)) = ""
  /\ patch (info (parsed tag)) = "".
Proof.
  unfold parsed. intros ->.
  destruct (special tag); [repeat split|].
  destruct (generalTag tag); repeat split.
Qed.

(** The reconstruction of a version-like tag without MINOR is not matched by
    the version pattern: nothing stands between its two dots. *)
Lemma fromStart_two_dots maj rest :
  numeric maj = true -> fromStart (maj ++ "..0" ++ rest) = None.
Proof.
  intros Hm. apply numeric_inv in Hm as [Ht Hd].
  unfold fromStart.
  assert (Hv : span letterV (maj ++ "..0" ++ rest) = ("", maj ++ "..0" ++ rest)).
  { destruct maj as [|c maj]; [discriminate Ht|].
    cbn [allChars] in Hd. apply andb_true_iff in Hd as [Hc _].
    cbn [append span]. now rewrite (digit_not_letterV _ Hc). }
  rewrite Hv. cbn [String.length Nat.leb]. unfold tailMajor.
  rewrite (span_unique digit maj ("..0" ++ rest) Hd) by reflexivity.
  rewrite Ht. reflexivity.
Qed.

End DockerShape.

(* ------------------------------------------------------------------ *)
(** ** Further properties of the Docker recognizer: results *)

Section DockerResultProperties.

Import RegExp Lex DockerParser DockerGrammar ClosedForms RegExpFacts DockerPatterns
       VersionShape DockerFacts TagClasses DockerShape.

(** X20: the fields of every result of [DockerParser.parse].  [build] is
    empty; [format] is [docker] on success and empty on failure; [major],
    [minor] and [patch] are runs of digits, a later one present only after an
    earlier one; and [major] is present exactly for the version-like tags. *)
Theorem docker_fields_invariant (tag : string) :
  build (info (dockerParse tag)) = ""
  /\ format (dockerParse tag)
     = (if isValid (dockerParse tag) then Some DOCKER else None)
  /\ allChars digit (major (info (dockerParse tag))) = true
  /\ allChars digit (minor (info (dockerParse tag))) = true
  /\ allChars digit (patch (info (dockerParse tag))) = true
  /\ (major (info (dockerParse tag)) = "" -> minor (info (dockerParse tag)) = "")
  /\ (minor (info (dockerParse tag)) = "" -> patch (info (dockerParse tag)) = "")
  /\ (major (info (dockerParse tag)) <> "" <-> VersionLike tag).
Proof.
  rewrite dockerParse_parsed.
  split; [apply parsed_build|]. split; [apply parsed_format|].
  destruct (fromStart tag) as [[e caps]|] eqn:Hf.
  - assert (Hv : VersionLike tag) by (apply fromStart_versionLike; now rewrite Hf).
    destruct Hv as (v & maj & mp & suffix & Hw & ->).
    rewrite (parsed_version_like _ _ _ _ Hw). cbn [info major minor patch].
    pose proof Hw as Hw'. unfold wellFormed in Hw'.
    apply andb_true_iff in Hw' as [Hw' _]. apply andb_true_iff in Hw' as [Hw' Hd].
    apply andb_true_iff in Hw' as [_ Hm]. apply numeric_inv in Hm as [Ht Hm].
    repeat split.
    + exact Hm.
    + destruct mp as [[m [p|]]|]; cbn in Hd |- *; [| |reflexivity].
      * apply andb_true_iff in Hd as [Hd _]. now apply numeric_inv in Hd.
      * now apply numeric_inv in Hd.
    + destruct mp as [[m [p|]]|]; cbn in Hd |- *; [|reflexivity|reflexivity].
      apply andb_true_iff in Hd as [_ Hd]. now apply numeric_inv in Hd.
    + intros ->. discriminate Ht.
    + destruct mp as [[m [p|]]|]; cbn in Hd |- *; [| |reflexivity].
      * apply andb_true_iff in Hd as [Hd _]. apply numeric_inv in Hd as [Hd _].
        intros ->. discriminate Hd.
      * reflexivity.
    + intros _. exists v, maj, mp, suffix. split; [exact Hw|reflexivity].
    + intros _ ->. discriminate Ht.
  - destruct (parsed_unnumbered _ Hf) as (-> & -> & ->).
    repeat split; try reflexivity.
    + intros H. now elim H.
    + intros H. elim (fromStart_none Hf H).
Qed.

(** X21: reconstruction is idempotent on the version-like tags that have a
    MINOR.  The [version] of such a tag is itself version-like, and parsing
    it again returns the same [version] with the same MAJOR, MINOR and
    SUFFIX, the patch number being the one written (0 when the tag had
    none). *)
Theorem docker_version_is_fixed_point
    (v maj m : string) (p suffix : option string) :
  wellFormed v maj (Some (m, p)) suffix = true ->
  dockerParse (version (dockerParse (assemble v maj (Some (m, p)) suffix)))
  = mkResult true
      (version (dockerParse (assemble v maj (Some (m, p)) suffix)))
      (mkInfo maj m (JS.orElse (optional p) "0") (optional suffix) "")
      (Some DOCKER).
Proof.
  intros Hw. rewrite !dockerParse_parsed, (parsed_version_like _ _ _ _ Hw).
  cbn [version minorOf patchOf optional].
  assert (Hw2 : wellFormed "" maj (Some (m, Some (JS.orElse (optional p) "0")))
                  suffix = true).
  { unfold wellFormed in *.
    apply andb_true_iff in Hw as [Hw Hs]. apply andb_true_iff in Hw as [Hw Hd].
    apply andb_true_iff in Hw as [_ Hm].
    assert (Hm' : numeric m = true).
    { destruct p; cbn in Hd; [apply andb_true_iff in Hd as [Hd _]|]; exact Hd. }
    assert (Hp' : numeric (JS.orElse (optional p) "0") = true).
    { destruct p as [p|]; cbn in Hd |- *; [|reflexivity].
      apply andb_true_iff in Hd as [_ Hp]. pose proof Hp as Hp2.
      apply numeric_inv in Hp2 as [Ht _].
      destruct p; [discriminate Ht|exact Hp]. }
    cbn [dottedOk]. rewrite Hm, Hs, Hm', Hp'. reflexivity. }
  pose proof (parsed_version_like _ _ _ _ Hw2) as H.
  cbn [assemble dottedText minorOf patchOf optional append] in H.
  assert (Ho : JS.orElse (JS.orElse (optional p) "0") "0" = JS.orElse (optional p) "0")
    by (destruct (optional p); reflexivity).
  rewrite Ho, append_assoc in H. cbn [append] in H |- *. exact H.
Qed.

Lemma docker_version_is_fixed_point_witness :
  dockerParse (version (dockerParse "v1.2-alpine"))
  = mkResult true (version (dockerParse "v1.2-alpine"))
      (mkInfo "1" "2" "0" "alpine" "") (Some DOCKER).
Proof.
  exact (@docker_version_is_fixed_point "v" "1" "2" None (Some "alpine") eq_refl).
Defined.

(** X22: [DockerParser.parse] fails exactly on the tags that break the
    lexical rule (empty, a first character outside [[A-Za-z0-9_]], or a later
    one outside [[A-Za-z0-9_.-]]) and on the tags of more than 128 characters
    that are not version-like. *)
Theorem docker_failure_characterised (tag : string) :
  isValid (dockerParse tag) = false
  <-> lexical tag = false \/ (128 < String.length tag /\ ~ VersionLike tag).
Proof.
  rewrite dockerParse_parsed, parsed_valid, generalTag_lexical. split.
  - intros H. apply orb_false_iff in H as [H Hg].
    apply orb_false_iff in H as [_ Hf].
    destruct (lexical tag); [right|now left].
    cbn [andb] in Hg. apply Nat.leb_gt in Hg. split; [exact Hg|].
    apply fromStart_none. now destruct (fromStart tag).
  - intros H.
    assert (Hg : lexical tag && (String.length tag <=? 128) = false).
    { destruct H as [->|[H _]]; [reflexivity|].
      apply Nat.leb_gt in H. rewrite H. apply andb_false_r. }
    rewrite Hg, orb_false_r.
    assert (Hs : special tag = false).
    { destruct (special tag) eqn:Hs; [|reflexivity].
      apply special_general in Hs. rewrite generalTag_lexical in Hs. congruence. }
    rewrite Hs. cbn [orb].
    destruct (fromStart tag) as [z|] eqn:Hf; [|reflexivity].
    assert (Hv : VersionLike tag) by (apply fromStart_versionLike; now rewrite Hf).
    destruct H as [Hl|[_ Hn]]; [|now elim Hn].
    rewrite (versionLike_lexical Hv) in Hl. discriminate Hl.
Qed.

(** X6: the [version] of a version-like tag without MINOR has nothing
    between its two dots, [MAJOR..0] followed by the suffix, and is therefore
    not a version-like tag itself. *)
Theorem docker_version_without_minor (v maj : string) (suffix : option string) :
  wellFormed v maj None suffix = true ->
  dockerParse (assemble v maj None suffix)
  = mkResult true (maj ++ "..0" ++ suffixText suffix)
      (mkInfo maj "" "" (optional suffix) "") (Some DOCKER)
  /\ ~ VersionLike (version (dockerParse (assemble v maj None suffix))).
Proof.
  intros Hw. rewrite dockerParse_parsed, (parsed_version_like _ _ _ _ Hw).
  cbn [version minorOf patchOf optional JS.orElse JS.truthy append].
  split; [reflexivity|].
  apply fromStart_none.
  unfold wellFormed in Hw.
  apply andb_true_iff in Hw as [Hw _]. apply andb_true_iff in Hw as [Hw _].
  apply andb_true_iff in Hw as [_ Hm].
  exact (@fromStart_two_dots maj (suffixText suffix) Hm).
Qed.

Lemma docker_version_without_minor_witness :
  dockerParse "v1-rc" = mkResult true "1..0-rc" (mkInfo "1" "" "" "rc" "") (Some DOCKER)
  /\ ~ VersionLike (version (dockerParse "v1-rc")).
Proof.
  exact (@docker_version_without_minor "v" "1" (Some "rc") eq_refl).
Defined.

End DockerResultProperties.

(* ------------------------------------------------------------------ *)
(** ** Facts about a run *)

Module ActionFacts.

Import JS Lex Action Scenario.

Lemma trimStart_blank s : blank s = true -> trimStart s = "".
Proof.
  induction s as [|c s IH]; [reflexivity|].
  unfold blank. cbn [allChars trimStart].
  destruct (isWhiteSpace c); [exact IH|discriminate].
Qed.

Lemma trimStart_nonblank s :
  blank s = false ->
  exists c r, trimStart s = String c r /\ isWhiteSpace c = false.
Proof.
  induction s as [|c s IH]; [discriminate|].
  unfold blank. cbn [allChars trimStart].
  destruct (isWhiteSpace c) eqn:Hc.
  - exact IH.
  - intros _. exists c, s. split; [reflexivity|exact Hc].
Qed.

(** The test [tagInput && tagInput.trim() !== ''] fails exactly on a blank
    input. *)
Lemma lookup_condition s :
  truthy s && negb (String.eqb (trim s) "") = negb (blank s).
Proof.
  destruct (blank s) eqn:Hb.
  - unfold trim. rewrite (trimStart_blank _ Hb). cbn. apply andb_false_r.
  - destruct (trimStart_nonblank _ Hb) as (c & r & Ht & Hc).
    unfold trim. rewrite Ht. cbn [trimEnd]. rewrite Hc. cbn.
    destruct s; [discriminate Hb|reflexivity].
Qed.

Lemma toLowerCaseChar_idempotent c :
  toLowerCaseChar (toLowerCaseChar c) = toLowerCaseChar c.
Proof. ClosedForms.by_cases_on c. Qed.

Lemma toLowerCase_idempotent s : toLowerCase (toLowerCase s) = toLowerCase s.
Proof.
  induction s as [|c s IH]; [reflexivity|].
  cbn [toLowerCase]. now rewrite toLowerCaseChar_idempotent, IH.
Qed.

Lemma orElse_empty s : orElse s "" = s.
Proof. destruct s; reflexivity. Qed.

Lemma if_same (A : Type) (b : bool) (x : A) : (if b then x else x) = x.
Proof. destruct b; reflexivity. Qed.

(** *** What a list of calls sets and reports *)

Lemma outputs_app a b : outputs (a ++ b)%list = (outputs a ++ outputs b)%list.
Proof. apply flat_map_app. Qed.

Lemma outputs_concat ls : outputs (List.concat ls) = List.concat (map outputs ls).
Proof.
  induction ls as [|l ls IH]; [reflexivity|].
  cbn [List.concat map]. now rewrite outputs_app, IH.
Qed.

Lemma outputs_if (b : bool) x y :
  outputs (if b then x else y) = if b then outputs x else outputs y.
Proof. destruct b; reflexivity. Qed.

Lemma outputs_nil : outputs [] = [].
Proof. reflexivity. Qed.

Lemma outputs_debug l m : outputs (Logger.debug l m) = [].
Proof. destruct l as [[|]]; reflexivity. Qed.

Lemma outputs_info l m : outputs (Logger.info l m) = [].
Proof. reflexivity. Qed.

Lemma outputs_warning l m : outputs (Logger.warning l m) = [].
Proof. reflexivity. Qed.

Lemma failures_app a b : failures (a ++ b)%list = (failures a ++ failures b)%list.
Proof. apply flat_map_app. Qed.

Lemma failures_concat ls : failures (List.concat ls) = List.concat (map failures ls).
Proof.
  induction ls as [|l ls IH]; [reflexivity|].
  cbn [List.concat map]. now rewrite failures_app, IH.
Qed.

Lemma failures_if (b : bool) x y :
  failures (if b then x else y) = if b then failures x else failures y.
Proof. destruct b; reflexivity. Qed.

Lemma failures_nil : failures [] = [].
Proof. reflexivity. Qed.

Lemma failures_debug l m : failures (Logger.debug l m) = [].
Proof. destruct l as [[|]]; reflexivity. Qed.

Lemma failures_info l m : failures (Logger.info l m) = [].
Proof. reflexivity. Qed.

Lemma failures_warning l m : failures (Logger.warning l m) = [].
Proof. reflexivity. Qed.

(** The lines of the log set no output and report no failure. *)
Ltac effects :=
  repeat (progress (rewrite ?outputs_if, ?outputs_concat, ?outputs_app,
                      ?outputs_debug, ?outputs_info, ?outputs_warning,
                      ?outputs_nil,
                      ?failures_if, ?failures_concat, ?failures_app,
                      ?failures_debug, ?failures_info, ?failures_warning,
                      ?failures_nil, ?if_same;
                    cbn [map List.concat app])).

(** The outputs [run] sets once it has a tag. *)
Lemma classify_outputs logger E v tag :
  outputs (classify logger E v tag) =
    let r := parse E tag (resolve v) in
    let i := info r in
    let dated := formatIs (format r) CALVER || formatIs (format r) DATE_BASED in
    let semver := formatIs (format r) SEMVER in
    [ ("isValid", boolText (isValid r));
      ("version", version r);
      ("format", orElse (formatValue (format r)) "");
      ("major", major i);
      ("minor", minor i);
      ("patch", patch i);
      ("prerelease", prerelease i);
      ("build", build i);
      ("commit", extractCommit E tag);
      ("year", if dated then major i else "");
      ("month", if dated then minor i else "");
      ("day", if dated then patch i else "");
      ("hasPrerelease", if semver then boolText (truthy (prerelease i)) else "false");
      ("hasBuild", if semver then boolText (truthy (build i)) else "false") ].
Proof.
  unfold classify, resolve. cbv zeta.
  destruct (ofValue (toLowerCase v)); effects; reflexivity.
Qed.

Lemma classify_failures logger E v tag : failures (classify logger E v tag) = [].
Proof.
  unfold classify. cbv zeta.
  destruct (ofValue (toLowerCase v)); effects; reflexivity.
Qed.

(** [classify] reads the registry and the commit extractor only. *)
Lemma classify_env logger E E' v tag :
  parse E' = parse E -> extractCommit E' = extractCommit E ->
  classify logger E' v tag = classify logger E v tag.
Proof. unfold classify. intros -> ->. reflexivity. Qed.

(** What a run sets and reports, by the outcome of the lookup. *)
Lemma run_effects E :
  (outputs (run E), failures (run E)) =
    match lookup E with
    | resolved t =>
        match found t with
        | Some tag =>
            (outputs (classify (Logger.mk (verboseMode E)) E
                        (orElse (getInput E "versionType") "auto") tag), [])
        | None => (outputs setEmptyOutputs, [])
        end
    | rejectedError message => ([], [message])
    | rejectedOther => ([], ["Unknown error occurred"])
    end.
Proof.
  unfold run, lookup, verboseMode. cbv zeta. rewrite lookup_condition.
  destruct (blank (getInput E "tag")); cbn [negb]; effects.
  - destruct (getMostRecentTag E) as [t| |]; cbn [await]; [|reflexivity|reflexivity].
    destruct (found t); effects; rewrite ?classify_failures, ?app_nil_r; reflexivity.
  - destruct (getTag E (trim (getInput E "tag"))) as [t| |]; cbn [await];
      [|reflexivity|reflexivity].
    destruct (found t); effects; rewrite ?classify_failures, ?app_nil_r; reflexivity.
Qed.

Lemma run_outputs E :
  outputs (run E) =
    match lookup E with
    | resolved t =>
        match found t with
        | Some tag =>
            outputs (classify (Logger.mk (verboseMode E)) E
                       (orElse (getInput E "versionType") "auto") tag)
        | None => outputs setEmptyOutputs
        end
    | _ => []
    end.
Proof.
  change (outputs (run E)) with (fst (outputs (run E), failures (run E))).
  rewrite run_effects.
  destruct (lookup E) as [t| |]; [destruct (found t)| |]; reflexivity.
Qed.

Lemma run_failures E :
  failures (run E) =
    match rejection (lookup E) with Some message => [message] | None => [] end.
Proof.
  change (failures (run E)) with (snd (outputs (run E), failures (run E))).
  rewrite run_effects.
  destruct (lookup E) as [t| |]; [destruct (found t)| |]; reflexivity.
Qed.

(** The outputs of a run that found its tag. *)
Lemma run_found E t tag :
  lookup E = resolved t -> found t = Some tag ->
  outputs (run E) =
    let r := parse E tag (requested (getInput E "versionType")) in
    let i := info r in
    let dated := formatIs (format r) CALVER || formatIs (format r) DATE_BASED in
    let semver := formatIs (format r) SEMVER in
    [ ("isValid", boolText (isValid r));
      ("version", version r);
      ("format", orElse (formatValue (format r)) "");
      ("major", major i);
      ("minor", minor i);
      ("patch", patch i);
      ("prerelease", prerelease i);
      ("build", build i);
      ("commit", extractCommit E tag);
      ("year", if dated then major i else "");
      ("month", if dated then minor i else "");
      ("day", if dated then patch i else "");
      ("hasPrerelease", if semver then boolText (truthy (prerelease i)) else "false");
      ("hasBuild", if semver then boolText (truthy (build i)) else "false") ].
Proof.
  intros Hl Hf. rewrite run_outputs, Hl, Hf. apply classify_outputs.
Qed.

(** The three cases of a run. *)
Lemma run_cases E :
  (exists message, rejection (lookup E) = Some message)
  \/ (exists t, lookup E = resolved t /\ found t = None)
  \/ (exists t tag, lookup E = resolved t /\ found t = Some tag).
Proof.
  destruct (lookup E) as [t| |]; cbn [rejection]; eauto.
  destruct (found t) eqn:Hf; eauto 6.
Qed.

(** *** Inputs *)

Lemma getInput_same E name value : getInput (setInput E name value) name = value.
Proof. cbn [setInput getInput]. now rewrite String.eqb_refl. Qed.

Lemma getInput_other E name value n :
  String.eqb n name = false -> getInput (setInput E name value) n = getInput E n.
Proof. cbn [setInput getInput]. now intros ->. Qed.

Lemma lookup_setInput E name value :
  String.eqb "tag" name = false -> lookup (setInput E name value) = lookup E.
Proof.
  intros H. unfold lookup. rewrite getInput_other by exact H. reflexivity.
Qed.

(** *** The two modes of the logger *)

Lemma promote_if (b : bool) x y :
  map promote (if b then x else y) = if b then map promote x else map promote y.
Proof. destruct b; reflexivity. Qed.

Lemma promote_await (A : Type) (p : outcome A) k :
  map promote (await p k) = await p (fun a => map promote (k a)).
Proof. destruct p; reflexivity. Qed.

Lemma outputs_promote calls : outputs (map promote calls) = outputs calls.
Proof.
  induction calls as [|c calls IH]; [reflexivity|].
  cbn [map].
  change (outputs (promote c :: map promote calls))
    with (outputs ([promote c] ++ map promote calls)%list).
  change (outputs (c :: calls)) with (outputs ([c] ++ calls)%list).
  rewrite !outputs_app, IH. destruct c; reflexivity.
Qed.

Lemma failures_promote calls : failures (map promote calls) = failures calls.
Proof.
  induction calls as [|c calls IH]; [reflexivity|].
  cbn [map].
  change (failures (promote c :: map promote calls))
    with (failures ([promote c] ++ map promote calls)%list).
  change (failures (c :: calls)) with (failures ([c] ++ calls)%list).
  rewrite !failures_app, IH. destruct c; reflexivity.
Qed.

(** A verbose logger writes what a quiet one writes, each call of
    [core.debug] turned into an info line. *)
Lemma classify_promote E v tag :
  classify (Logger.mk true) E v tag
  = map promote (classify (Logger.mk false) E v tag).
Proof.
  unfold classify. cbv zeta.
  destruct (ofValue (toLowerCase v));
    repeat (progress (rewrite ?concat_map, ?promote_if; cbn [map]));
    reflexivity.
Qed.

Lemma forallb_concat (A : Type) (P : A -> bool) ls :
  forallb P (List.concat ls) = forallb (forallb P) ls.
Proof.
  induction ls as [|l ls IH]; [reflexivity|].
  cbn [List.concat forallb]. now rewrite forallb_app, IH.
Qed.

Lemma forallb_if (A : Type) (P : A -> bool) (b : bool) x y :
  forallb P (if b then x else y) = if b then forallb P x else forallb P y.
Proof. destruct b; reflexivity. Qed.

Lemma channel_debug l m :
  forallb (channelOk (Logger.verbose l)) (Logger.debug l m) = true.
Proof. destruct l as [[|]]; reflexivity. Qed.

Lemma channel_warning b l m : forallb (channelOk b) (Logger.warning l m) = true.
Proof. reflexivity. Qed.

Lemma channel_verbose_info l m : forallb (channelOk true) (Logger.info l m) = true.
Proof. reflexivity. Qed.

Lemma channel_outputs b : forallb (channelOk b) setEmptyOutputs = true.
Proof. reflexivity. Qed.

(** The lines of the log keep to their channel; an info line of the source
    does not start with the debug mark. *)
Ltac channels :=
  repeat (progress (rewrite ?forallb_concat, ?forallb_app, ?forallb_if,
                      ?channel_debug, ?channel_warning, ?channel_verbose_info,
                      ?channel_outputs, ?if_same;
                    cbn [forallb andb]));
  repeat match goal with
         | |- context [forallb ?P (Logger.info ?l ?m)] =>
             change (forallb P (Logger.info l m)) with true
         end.

Lemma classify_channels logger E v tag :
  forallb (channelOk (Logger.verbose logger)) (classify logger E v tag) = true.
Proof.
  unfold classify. cbv zeta.
  destruct logger as [[|]], (ofValue (toLowerCase v)); channels; reflexivity.
Qed.

(** The calls of a run, with the mode of the logger read apart. *)
Lemma run_promote E :
  run E = if verboseMode E
          then map promote (run (setInput E "verbose" ""))
          else run (setInput E "verbose" "").
Proof.
  unfold run. cbv zeta.
  rewrite getInput_same, !getInput_other by reflexivity.
  cbn [setInput getTag getMostRecentTag].
  change (String.eqb (toLowerCase (orElse "" "false")) "true") with false.
  fold (verboseMode E). destruct (verboseMode E); [|reflexivity].
  pose proof (classify_promote E) as Hc.
  destruct (truthy (getInput E "tag") && negb (String.eqb (trim (getInput E "tag")) "")).
  - destruct (getTag E (trim (getInput E "tag"))) as [t| |]; cbn [await];
      [destruct (found t)| |];
      repeat (progress (rewrite ?concat_map, ?promote_if, ?map_app; cbn [map]));
      rewrite ?(@classify_env _ E (setInput E "verbose" "") _ _ eq_refl eq_refl),
        <- ?Hc; reflexivity.
  - destruct (getMostRecentTag E) as [t| |]; cbn [await];
      [destruct (found t)| |];
      repeat (progress (rewrite ?concat_map, ?promote_if, ?map_app; cbn [map]));
      rewrite ?(@classify_env _ E (setInput E "verbose" "") _ _ eq_refl eq_refl),
        <- ?Hc; reflexivity.
Qed.

(** *** The input [versionType] *)

Lemma requested_lower v : requested (toLowerCase v) = requested v.
Proof.
  unfold requested, resolve. destruct v as [|c v]; [reflexivity|].
  cbn [toLowerCase orElse truthy]. now rewrite toLowerCaseChar_idempotent, toLowerCase_idempotent.
Qed.

Lemma requested_unknown v : ofValue (toLowerCase v) = None -> requested v = AUTO.
Proof.
  unfold requested, resolve. destruct v as [|c v]; [reflexivity|].
  cbn [orElse truthy]. now intros ->.
Qed.

(** A run depends on the input [versionType] through the scheme it asks
    for. *)
Lemma run_by_request E v w :
  requested v = requested w ->
  outputs (run (setInput E "versionType" v)) = outputs (run (setInput E "versionType" w))
  /\ failures (run (setInput E "versionType" v))
     = failures (run (setInput E "versionType" w)).
Proof.
  intros H. rewrite !run_outputs, !run_failures, !lookup_setInput by reflexivity.
  split; [|reflexivity].
  destruct (lookup E) as [t| |]; [|reflexivity|reflexivity].
  destruct (found t) as [tag|]; [|reflexivity].
  rewrite !classify_outputs, !getInput_same. cbn [setInput parse extractCommit].
  fold (requested v). fold (requested w). rewrite H. reflexivity.
Qed.

End ActionFacts.

(* ------------------------------------------------------------------ *)
(** ** Properties of a run of the action *)

Section ActionProperties.

Import JS Lex Action Scenario ActionFacts.

(** X8: a run either sets each of the fourteen outputs exactly once, in the
    order of [outputNames], and reports no failure, or sets no output at all
    and reports exactly one failure. *)
Theorem run_sets_every_output_or_fails (E : env) :
  (map fst (outputs (run E)) = outputNames /\ failures (run E) = [])
  \/ (outputs (run E) = [] /\ exists message, failures (run E) = [message]).
Proof.
  rewrite run_outputs, run_failures.
  destruct (lookup E) as [t| |]; cbn [rejection].
  - left. destruct (found t); [rewrite classify_outputs|]; split; reflexivity.
  - right. eauto.
  - right. eauto.
Qed.

(** X9: when the lookup of the tag is rejected, the run sets no output and
    reports the rejection as its one failure: the message of the error, or
    [Unknown error occurred] for a value that is no error. *)
Theorem run_reports_rejection (E : env) (message : string) :
  rejection (lookup E) = Some message ->
  outputs (run E) = [] /\ failures (run E) = [message].
Proof.
  intros H. rewrite run_outputs, run_failures, H.
  destruct (lookup E) as [t| |]; [discriminate H| |]; split; reflexivity.
Qed.

Lemma run_reports_rejection_witness :
  rejection (lookup (brokenRepository "v1.2.3" "not a git repository"))
    = Some "not a git repository"
  /\ outputs (run (brokenRepository "v1.2.3" "not a git repository")) = []
  /\ failures (run (brokenRepository "v1.2.3" "not a git repository"))
     = ["not a git repository"].
Proof.
  split; [reflexivity|].
  apply (@run_reports_rejection
           (brokenRepository "v1.2.3" "not a git repository")
           "not a git repository").
  reflexivity.
Defined.

(** X10: when the lookup finds no tag ([null] or the empty string), the run
    sets the empty outputs, [isValid] and the two flags being [false], and
    reports no failure; its calls are the same whatever the registry and the
    commit extractor are, so it reads neither. *)
Theorem run_without_tag (E : env) (t : option string) :
  lookup E = resolved t -> found t = None ->
  outputs (run E)
  = [ ("isValid", "false"); ("version", ""); ("format", ""); ("major", "");
      ("minor", ""); ("patch", ""); ("prerelease", ""); ("build", "");
      ("commit", ""); ("year", ""); ("month", ""); ("day", "");
      ("hasPrerelease", "false"); ("hasBuild", "false") ]
  /\ failures (run E) = []
  /\ forall extract registry,
       run (mkEnv (getInput E) (getTag E) (getMostRecentTag E) extract registry)
       = run E.
Proof.
  intros Hl Hf. rewrite run_outputs, run_failures, Hl, Hf.
  split; [reflexivity|]. split; [reflexivity|].
  intros extract registry. unfold run, lookup in *. cbv zeta in *.
  cbn [getInput getTag getMostRecentTag].
  rewrite lookup_condition.
  destruct (blank (getInput E "tag")); cbn [negb]; rewrite Hl; cbn [await];
    rewrite Hf; reflexivity.
Qed.

Lemma run_without_tag_witness :
  outputs (run (emptyRepository "v9.9.9"))
  = [ ("isValid", "false"); ("version", ""); ("format", ""); ("major", "");
      ("minor", ""); ("patch", ""); ("prerelease", ""); ("build", "");
      ("commit", ""); ("year", ""); ("month", ""); ("day", "");
      ("hasPrerelease", "false"); ("hasBuild", "false") ]
  /\ failures (run (emptyRepository "v9.9.9")) = []
  /\ forall extract registry,
       run (mkEnv (getInput (emptyRepository "v9.9.9"))
                  (getTag (emptyRepository "v9.9.9"))
                  (getMostRecentTag (emptyRepository "v9.9.9")) extract registry)
       = run (emptyRepository "v9.9.9").
Proof.
  apply (@run_without_tag (emptyRepository "v9.9.9") None); reflexivity.
Defined.

(** X11: when the lookup finds a tag, the outputs [isValid], [version],
    [format], [major], [minor], [patch], [prerelease] and [build] are the
    fields of the result of the registry on that tag under the scheme the
    input [versionType] asks for, and [commit] is what the extractor finds in
    the tag. *)
Theorem run_outputs_parse_result (E : env) (t : option string) (tag : string) :
  lookup E = resolved t -> found t = Some tag ->
  let r := parse E tag (requested (getInput E "versionType")) in
  output "isValid" (run E) = Some (boolText (isValid r))
  /\ output "version" (run E) = Some (version r)
  /\ output "format" (run E) = Some (formatValue (format r))
  /\ output "major" (run E) = Some (major (info r))
  /\ output "minor" (run E) = Some (minor (info r))
  /\ output "patch" (run E) = Some (patch (info r))
  /\ output "prerelease" (run E) = Some (prerelease (info r))
  /\ output "build" (run E) = Some (build (info r))
  /\ output "commit" (run E) = Some (extractCommit E tag).
Proof.
  intros Hl Hf r. unfold output. rewrite (run_found E Hl Hf). cbv zeta.
  fold r. rewrite orElse_empty. repeat split; reflexivity.
Qed.

Lemma run_outputs_parse_result_witness :
  output "isValid" (run (sampleEnv "v1.2.3-alpine" "docker" "")) = Some "true"
  /\ output "version" (run (sampleEnv "v1.2.3-alpine" "docker" ""))
     = Some "1.2.3-alpine"
  /\ output "format" (run (sampleEnv "v1.2.3-alpine" "docker" "")) = Some "docker"
  /\ output "major" (run (sampleEnv "v1.2.3-alpine" "docker" "")) = Some "1"
  /\ output "minor" (run (sampleEnv "v1.2.3-alpine" "docker" "")) = Some "2"
  /\ output "patch" (run (sampleEnv "v1.2.3-alpine" "docker" "")) = Some "3"
  /\ output "prerelease" (run (sampleEnv "v1.2.3-alpine" "docker" ""))
     = Some "alpine"
  /\ output "build" (run (sampleEnv "v1.2.3-alpine" "docker" "")) = Some ""
  /\ output "commit" (run (sampleEnv "v1.2.3-alpine" "docker" "")) = Some "".
Proof.
  exact (@run_outputs_parse_result (sampleEnv "v1.2.3-alpine" "docker" "")
           (Some "v1.2.3-alpine") "v1.2.3-alpine" eq_refl eq_refl).
Defined.

(** X12: the outputs [year], [month] and [day] repeat [major], [minor] and
    [patch] when the output [format] is [calver] or [date-based], and are
    empty for every other format. *)
Theorem run_date_outputs (E : env) (f : string) :
  output "format" (run E) = Some f ->
  if String.eqb f "calver" || String.eqb f "date-based"
  then output "year" (run E) = output "major" (run E)
       /\ output "month" (run E) = output "minor" (run E)
       /\ output "day" (run E) = output "patch" (run E)
  else output "year" (run E) = Some ""
       /\ output "month" (run E) = Some ""
       /\ output "day" (run E) = Some "".
Proof.
  unfold output.
  destruct (run_cases E) as [(m & Hr)|[(t & Hl & Hf)|(t & tag & Hl & Hf)]].
  - rewrite run_outputs. destruct (lookup E); discriminate.
  - rewrite run_outputs, Hl, Hf. intros H. injection H as <-.
    repeat split; reflexivity.
  - rewrite (run_found E Hl Hf). cbv zeta.
    destruct (parse E tag (requested (getInput E "versionType")))
      as [valid ver [ma mi pa pre bu] [[| | | |]|]];
      intros H; injection H as <-; repeat split; reflexivity.
Qed.

Lemma run_date_outputs_witness :
  output "format" (run (sampleEnv "2024.01.15" "calver" "")) = Some "calver"
  /\ output "year" (run (sampleEnv "2024.01.15" "calver" ""))
     = output "major" (run (sampleEnv "2024.01.15" "calver" ""))
  /\ output "month" (run (sampleEnv "2024.01.15" "calver" ""))
     = output "minor" (run (sampleEnv "2024.01.15" "calver" ""))
  /\ output "day" (run (sampleEnv "2024.01.15" "calver" ""))
     = output "patch" (run (sampleEnv "2024.01.15" "calver" "")).
Proof.
  split; [reflexivity|].
  exact (@run_date_outputs (sampleEnv "2024.01.15" "calver" "") "calver" eq_refl).
Defined.

(** One flag: it is [true] exactly for a non-empty field of a semver
    result. *)
Ltac flag :=
  split;
  [ intros H;
    first [ discriminate H
          | split; [reflexivity|eexists; split; [reflexivity|discriminate]] ]
  | intros (Hfmt & x & Hx & Hn);
    first [ discriminate Hfmt | reflexivity | injection Hx as <-; now elim Hn ] ].

(** X13: the output [hasPrerelease] is [true] exactly when the output
    [format] is [semver] and the output [prerelease] is not empty, and
    [hasBuild] is [true] exactly when [format] is [semver] and [build] is not
    empty; a prerelease of any other format leaves the flag [false]. *)
Theorem run_flag_outputs (E : env) :
  (output "hasPrerelease" (run E) = Some "true"
   <-> output "format" (run E) = Some "semver"
       /\ exists p, output "prerelease" (run E) = Some p /\ p <> "")
  /\ (output "hasBuild" (run E) = Some "true"
      <-> output "format" (run E) = Some "semver"
          /\ exists b, output "build" (run E) = Some b /\ b <> "").
Proof.
  unfold output.
  destruct (run_cases E) as [(m & Hr)|[(t & Hl & Hf)|(t & tag & Hl & Hf)]].
  - rewrite run_outputs.
    destruct (lookup E); [discriminate Hr| |]; cbn; split; flag.
  - rewrite run_outputs, Hl, Hf. cbn. split; flag.
  - rewrite (run_found E Hl Hf). cbv zeta.
    destruct (parse E tag (requested (getInput E "versionType")))
      as [valid ver [ma mi pa pre bu] [[| | | |]|]];
      destruct pre as [|c pre], bu as [|d bu]; cbn; split; flag.
Qed.

(** X14: the input [versionType] is read without regard to case: a run sets
    the same outputs and reports the same failures for an input and for its
    lower-case form. *)
Theorem run_versionType_case_insensitive (E : env) (v : string) :
  outputs (run (setInput E "versionType" (toLowerCase v)))
  = outputs (run (setInput E "versionType" v))
  /\ failures (run (setInput E "versionType" (toLowerCase v)))
     = failures (run (setInput E "versionType" v)).
Proof. apply run_by_request, requested_lower. Qed.

(** X15: an input [versionType] that is the name of no scheme in any casing
    has the effect of [auto]: the run sets the same outputs and reports the
    same failures. *)
Theorem run_versionType_fallback (E : env) (v : string) :
  ofValue (toLowerCase v) = None ->
  outputs (run (setInput E "versionType" v))
  = outputs (run (setInput E "versionType" "auto"))
  /\ failures (run (setInput E "versionType" v))
     = failures (run (setInput E "versionType" "auto")).
Proof.
  intros H. apply run_by_request. now rewrite (requested_unknown _ H).
Qed.

Lemma run_versionType_fallback_witness :
  ofValue (toLowerCase "Sem-Ver") = None
  /\ outputs (run (setInput (sampleEnv "v1.2.3" "" "") "versionType" "Sem-Ver"))
     = outputs (run (setInput (sampleEnv "v1.2.3" "" "") "versionType" "auto"))
  /\ failures (run (setInput (sampleEnv "v1.2.3" "" "") "versionType" "Sem-Ver"))
     = failures (run (setInput (sampleEnv "v1.2.3" "" "") "versionType" "auto")).
Proof.
  split; [reflexivity|].
  exact (@run_versionType_fallback (sampleEnv "v1.2.3" "" "") "Sem-Ver" eq_refl).
Defined.

(** X16: the input [verbose] changes the log only.  The calls of a verbose
    run are those of the same run without [verbose], each call of
    [core.debug] turned into the info line that starts with the debug mark;
    outputs and failures are the same. *)
Theorem run_verbose_changes_the_log_only (E : env) :
  run E = (if verboseMode E
           then map promote (run (setInput E "verbose" ""))
           else run (setInput E "verbose" ""))
  /\ outputs (run E) = outputs (run (setInput E "verbose" ""))
  /\ failures (run E) = failures (run (setInput E "verbose" "")).
Proof.
  pose proof (run_promote E) as H. split; [exact H|].
  rewrite H. destruct (verboseMode E);
    rewrite ?outputs_promote, ?failures_promote; split; reflexivity.
Qed.

(** X17: a run reads the repository through one lookup: the most recent tag
    when the input [tag] is blank (empty or white space only), the tag named
    by the trimmed input otherwise.  Its calls do not change when the other
    lookup, or the lookup of any other name, answers differently. *)
Theorem run_reads_one_lookup (E : env)
    (byName : string -> outcome (option string))
    (mostRecent : outcome (option string)) :
  (if blank (getInput E "tag")
   then mostRecent = getMostRecentTag E
   else byName (trim (getInput E "tag")) = getTag E (trim (getInput E "tag"))) ->
  run (mkEnv (getInput E) byName mostRecent (extractCommit E) (parse E)) = run E.
Proof.
  unfold run. cbv zeta. cbn [getInput getTag getMostRecentTag].
  rewrite lookup_condition.
  destruct (blank (getInput E "tag")); cbn [negb]; intros ->; reflexivity.
Qed.

Lemma run_reads_one_lookup_witness :
  run (mkEnv (getInput (sampleEnv "  " "" "")) (fun _ => rejectedOther)
             (getMostRecentTag (sampleEnv "  " "" ""))
             (extractCommit (sampleEnv "  " "" "")) (parse (sampleEnv "  " "" "")))
  = run (sampleEnv "  " "" "").
Proof.
  apply (@run_reads_one_lookup (sampleEnv "  " "" "") (fun _ => rejectedOther)
           (getMostRecentTag (sampleEnv "  " "" ""))).
  reflexivity.
Defined.

(** X18: the outputs of a run whose registry answers with the result of the
    Docker recognizer.  [format] is [docker] on success and empty on failure;
    [version] is then the recognizer's version or the tag itself; [build],
    [year], [month] and [day] are empty; and [hasPrerelease] and [hasBuild]
    are [false], also for a tag whose suffix fills [prerelease]. *)
Theorem run_on_docker_result (E : env) (t : option string) (tag : string) :
  lookup E = resolved t -> found t = Some tag ->
  parse E tag (requested (getInput E "versionType")) = dockerParse tag ->
  output "format" (run E)
  = Some (if isValid (dockerParse tag) then "docker" else "")
  /\ output "version" (run E)
     = Some (if isValid (dockerParse tag) then version (dockerParse tag) else tag)
  /\ output "prerelease" (run E) = Some (prerelease (info (dockerParse tag)))
  /\ output "build" (run E) = Some ""
  /\ output "year" (run E) = Some ""
  /\ output "month" (run E) = Some ""
  /\ output "day" (run E) = Some ""
  /\ output "hasPrerelease" (run E) = Some "false"
  /\ output "hasBuild" (run E) = Some "false".
Proof.
  intros Hl Hf Hp. unfold output. rewrite (run_found E Hl Hf). cbv zeta.
  rewrite Hp, DockerFacts.dockerParse_parsed.
  pose proof (DockerShape.parsed_format tag) as Hfmt.
  pose proof (DockerShape.parsed_build tag) as Hb.
  pose proof (DockerShape.parsed_failure tag) as Hfail.
  destruct (ClosedForms.parsed tag) as [valid ver [ma mi pa pre bu] f].
  cbn [format isValid info build] in Hfmt, Hb, Hfail. subst f bu.
  destruct valid.
  - repeat split; reflexivity.
  - specialize (Hfail eq_refl). injection Hfail as -> -> -> -> ->.
    repeat split; reflexivity.
Qed.

Lemma run_on_docker_result_witness :
  output "format" (run (sampleEnv "1.2.3-alpine" "docker" "")) = Some "docker"
  /\ output "version" (run (sampleEnv "1.2.3-alpine" "docker" ""))
     = Some "1.2.3-alpine"
  /\ output "prerelease" (run (sampleEnv "1.2.3-alpine" "docker" "")) = Some "alpine"
  /\ output "build" (run (sampleEnv "1.2.3-alpine" "docker" "")) = Some ""
  /\ output "year" (run (sampleEnv "1.2.3-alpine" "docker" "")) = Some ""
  /\ output "month" (run (sampleEnv "1.2.3-alpine" "docker" "")) = Some ""
  /\ output "day" (run (sampleEnv "1.2.3-alpine" "docker" "")) = Some ""
  /\ output "hasPrerelease" (run (sampleEnv "1.2.3-alpine" "docker" ""))
     = Some "false"
  /\ output "hasBuild" (run (sampleEnv "1.2.3-alpine" "docker" "")) = Some "false".
Proof.
  exact (@run_on_docker_result (sampleEnv "1.2.3-alpine" "docker" "")
           (Some "1.2.3-alpine") "1.2.3-alpine" eq_refl eq_refl eq_refl).
Defined.

(** X19: a run never calls [core.error]; it calls [core.debug] only when it
    is not verbose, and writes an info line that starts with the debug mark
    only when it is verbose. *)
Theorem run_log_channels (E : env) :
  forallb (channelOk (verboseMode E)) (run E) = true.
Proof.
  unfold run. cbv zeta. fold (verboseMode E).
  pose proof (classify_channels (Logger.mk (verboseMode E)) E) as Hc.
  cbn [Logger.verbose] in Hc.
  destruct (truthy (getInput E "tag") && negb (String.eqb (trim (getInput E "tag")) "")).
  - destruct (getTag E (trim (getInput E "tag"))) as [t| |]; cbn [await];
      [destruct (found t)| |]; destruct (verboseMode E); channels;
      rewrite ?Hc; reflexivity.
  - destruct (getMostRecentTag E) as [t| |]; cbn [await];
      [destruct (found t)| |]; destruct (verboseMode E); channels;
      rewrite ?Hc; reflexivity.
Qed.

End ActionProperties.
